(** * AutoThreads: a shallow embedding of [src/AutoThreads.ts]

    The service watches MESSAGE_CREATE events, opens a thread for every
    eligible message (title from the classifier, with a retry policy and
    a fallback), and registers three interaction handlers ([edit],
    [editSubmit], [archive]) behind a shared permission check.

    Effects are embedded as functions from the collaborators (a [World]
    of oracles) and the history of events to the events they emit and an
    [Exit]; strings are [string]s whose characters stand for the code
    units of the JavaScript strings. *)

From Stdlib Require Import String Ascii List ZArith Bool Arith Lia.
Import ListNotations.
Local Open Scope string_scope.
Local Open Scope list_scope.

Set Implicit Arguments.

(** ** JavaScript string helpers used by the source *)

Module Js.

(** [s.startsWith(p)] *)
Definition startsWith (s p : string) : bool := String.prefix p s.

(** [s.includes(sub)] *)
Fixpoint includes (s sub : string) : bool :=
  if String.prefix sub s then true
  else match s with
       | EmptyString => false
       | String _ s' => includes s' sub
       end.

(** [s.split(sep)] for a one-character separator. *)
Fixpoint split (sep : ascii) (s : string) : list string :=
  match s with
  | EmptyString => [EmptyString]
  | String c s' =>
      if Ascii.eqb c sep then EmptyString :: split sep s'
      else match split sep s' with
           | seg :: rest => String c seg :: rest
           | [] => [String c EmptyString]
           end
  end.

(** [a === b] on values that may be [undefined]. *)
Definition strict_eq (a b : option string) : bool :=
  match a, b with
  | Some x, Some y => String.eqb x y
  | None, None => true
  | _, _ => false
  end.

(** The line feed of a template literal. *)
Definition nl : string := String (ascii_of_nat 10) EmptyString.

End Js.

(** Modelled from the spec: [Str.truncate] of [bot/utils/String], which
    is imported by the source but is not part of it. The spec describes
    a hard cut to the first [len] characters, leaving a shorter string
    unchanged. *)
Definition truncate (str : string) (len : nat) : string :=
  String.substring 0 len str.

(** ** The platform's data, as far as the source reads it *)

Module Discord.

(** [Discord.MessageType.DEFAULT] and [Discord.ChannelType.GUILD_TEXT] *)
Definition MessageType_DEFAULT : Z := 0.
Definition ChannelType_GUILD_TEXT : Z := 0.

(** [Discord.PermissionFlag.MANAGE_CHANNELS], bit 4 *)
Definition PermissionFlag_MANAGE_CHANNELS : Z := Z.shiftl 1 4.

(** [Discord.MessageFlag.EPHEMERAL], bit 6 *)
Definition MessageFlag_EPHEMERAL : Z := Z.shiftl 1 6.

Inductive ButtonStyle := PRIMARY | SECONDARY.

Record User := {
  user_id : string;
  username : string;
  bot : option bool
}.

Record MessageMember := {
  nick : option string
}.

Record Message := {
  message_id : string;
  message_channel_id : string;
  message_guild_id : option string;
  message_type : Z;
  author : User;
  member : option MessageMember;
  content : string
}.

Record Channel := {
  channel_id : string;
  channel_name : option string;
  topic : option string;
  channel_type : Z
}.

Record Button := {
  button_custom_id : string;
  button_label : string;
  button_style : option ButtonStyle
}.

Record TextInput := {
  input_custom_id : string;
  input_label : string;
  max_length : nat;
  input_value : option string
}.

(** The body of [rest.startThreadFromMessage]. *)
Record StartThreadParams := {
  thread_name : string;
  auto_archive_duration : Z
}.

(** The body of [rest.createMessage]. *)
Record CreateMessageParams := {
  msg_content : option string;
  msg_components : option (list (list Button))
}.

(** The body of [rest.modifyChannel]. *)
Record ModifyChannelParams := {
  new_name : option string;
  archived : option bool
}.

Record Thread := {
  thread_id : string
}.

Record GuildMember := {
  member_user : option User;
  permissions : option Z
}.

Inductive InteractionData :=
| MessageComponent (custom_id : string)
| ModalSubmit (custom_id : string) (values : list (string * string)).

Record Interaction := {
  ix_guild_id : option string;
  ix_channel_id : option string;
  ix_member : option GuildMember;
  ix_data : InteractionData
}.

(** What [Ix.response] carries, by [InteractionCallbackType]. *)
Inductive InteractionResponse :=
| MODAL (custom_id title : string) (components : list TextInput)
| DEFERRED_UPDATE_MESSAGE
| CHANNEL_MESSAGE_WITH_SOURCE (flags : Z) (content : string).

End Discord.
Import Discord.

(** [Perms.has]: every bit of [flag] is set in [bits]. *)
Definition Perms_has (flag bits : Z) : bool := Z.eqb (Z.land bits flag) flag.

(** ** Errors *)

(** The tagged failures that reach this service. [NotValidMessageError]
    is declared by the source and raised nowhere in it. *)
Inductive Error :=
| ParseError (path : list string)
| OpenAIError (detail : string)
| NotValidMessageError (reason : string)
| PermissionsError (action subject : string)
| DiscordRESTError (detail : string)
| CacheMissError (detail : string)
| ModalValueNotFound (name : string)
| DefinitionNotFound.

Definition _tag (e : Error) : string :=
  match e with
  | ParseError _ => "ParseError"
  | OpenAIError _ => "OpenAIError"
  | NotValidMessageError _ => "NotValidMessageError"
  | PermissionsError _ _ => "PermissionsError"
  | DiscordRESTError _ => "DiscordRESTError"
  | CacheMissError _ => "CacheMissError"
  | ModalValueNotFound _ => "ModalValueNotFound"
  | DefinitionNotFound => "DefinitionNotFound"
  end.

(** A cause is a typed failure or a defect (a thrown exception). *)
Inductive Cause :=
| Failed (e : Error)
| Died (defect : string).

Inductive Exit (A : Type) :=
| Success (a : A)
| Failure (c : Cause).
Arguments Success {A} a.
Arguments Failure {A} c.

(** [MessageInfo], the classifier's answer. *)
Record MessageInfo := {
  short_title : string;
  has_code_examples : bool;
  has_code_fences : bool
}.

Definition missingCodeFences (info : MessageInfo) : bool :=
  has_code_examples info && negb (has_code_fences info).

(** ** Events and collaborators *)

Inductive LogLevel := LevelDebug | LevelInfo | LevelError.

Inductive LogMessage :=
| LogCause (c : Cause)
| LogText (s : string).

(** What one run does to the outside, in order. [Sleep millis] is the
    wait of the schedule driver before a recurrence. *)
Inductive Event :=
| OpenAIFn (fn : string) (input : string)
| Sleep (millis : Z)
| ChannelsGet (guild : option string) (channel : option string)
| StartThreadFromMessage (channel message : string) (params : StartThreadParams)
| CreateMessage (channel : string) (params : CreateMessageParams)
| ModifyChannel (channel : option string) (params : ModifyChannelParams)
| Log (level : LogLevel) (message : LogMessage).

Definition Trace := list Event.

(** The collaborators answer a request knowing everything that happened
    before it, so the same request may be answered differently twice.
    [clock] is the time in milliseconds the runtime's clock shows once
    a history has happened: how long a request takes is the world's.
    [formatIssue] is the text [TreeFormatter] gives for the issue of a
    [ParseError], a tree of several lines that is not computed here. *)
Record World := {
  openai_fn : Trace -> string -> string -> Exit MessageInfo;
  channels_get : Trace -> option string -> option string -> Exit Channel;
  rest_startThreadFromMessage :
    Trace -> string -> string -> StartThreadParams -> Exit Thread;
  rest_createMessage : Trace -> string -> CreateMessageParams -> Exit unit;
  rest_modifyChannel :
    Trace -> option string -> ModifyChannelParams -> Exit unit;
  clock : Trace -> Z;
  formatIssue : list string -> string
}.

(** ** Effects

    An effect reads the collaborators and the history of events, and
    gives the events it emits with its [Exit]; [None] is a run that did
    not finish within the fuel of a [retry]. *)

Module Effect.

Definition t (A : Type) : Type := World -> Trace -> option (Trace * Exit A).

Definition succeed {A} (a : A) : t A := fun _ _ => Some ([], Success a).

Definition failCause {A} (c : Cause) : t A := fun _ _ => Some ([], Failure c).

Definition fail {A} (e : Error) : t A := failCause (Failed e).

Definition die {A} (defect : string) : t A := failCause (Died defect).

(** A computation that has already ended, as an effect. *)
Definition fromExit {A} (r : Exit A) : t A := fun _ _ => Some ([], r).

(** A request to a collaborator: one event, answered from the history. *)
Definition request {A} (ev : Event) (answer : World -> Trace -> Exit A) : t A :=
  fun w h => Some ([ev], answer w h).

Definition log (level : LogLevel) (message : LogMessage) : t unit :=
  fun _ _ => Some ([Log level message], Success tt).

(** [next], run once the events [ev] have happened. *)
Definition after {B} (ev : Trace) (next : t B) : t B :=
  fun w h =>
    match next w (h ++ ev) with
    | None => None
    | Some (ev', r) => Some (ev ++ ev', r)
    end.

Definition flatMap {A B} (self : t A) (f : A -> t B) : t B :=
  fun w h =>
    match self w h with
    | Some (ev, Success a) => after ev (f a) w h
    | Some (ev, Failure c) => Some (ev, Failure c)
    | None => None
    end.

Definition map {A B} (self : t A) (f : A -> B) : t B :=
  flatMap self (fun a => succeed (f a)).

Definition as_ {A B} (self : t A) (b : B) : t B := map self (fun _ => b).

Definition tap {A B} (self : t A) (f : A -> t B) : t A :=
  flatMap self (fun a => as_ (f a) a).

Definition when {A} (self : t A) (condition : bool) : t (option A) :=
  if condition then map self Some else succeed None.

Definition catchAllCause {A} (self : t A) (f : Cause -> t A) : t A :=
  fun w h =>
    match self w h with
    | Some (ev, Failure c) => after ev (f c) w h
    | r => r
    end.

(** [catchTag]/[catchTags] with one tag. *)
Definition catchTag {A} (tag : string) (self : t A) (f : Error -> t A) : t A :=
  fun w h =>
    match self w h with
    | Some (ev, Failure (Failed e)) =>
        if String.eqb (_tag e) tag
        then after ev (f e) w h
        else Some (ev, Failure (Failed e))
    | r => r
    end.

(** Runs [f] on a failure's cause and fails with the cause again. *)
Definition tapErrorCause {A B} (self : t A) (f : Cause -> t B) : t A :=
  catchAllCause self (fun c => flatMap (f c) (fun _ => failCause c)).

(** Replaces a typed failure by a value; a defect is not an error and
    stays. *)
Definition orElseSucceed {A} (self : t A) (a : A) : t A :=
  fun w h =>
    match self w h with
    | Some (ev, Failure (Failed _)) => Some (ev, Success a)
    | r => r
    end.

End Effect.

Declare Scope effect_scope.
Delimit Scope effect_scope with effect.
Notation "x <- a ;; b" := (Effect.flatMap a (fun x => b))
  (at level 61, a at next level, right associativity) : effect_scope.
Notation "a ;;; b" := (Effect.flatMap a (fun _ => b))
  (at level 61, right associativity) : effect_scope.
Local Open Scope effect_scope.

(** ** Schedules

    A schedule is a state machine that is stepped with the time of the
    clock: it stops, or it continues and gives the time from which the
    next recurrence may start. *)

Module Schedule.

Record t := {
  state : Type;
  initial : state;
  step : Z -> state -> option (state * Z)
}.

(** [Schedule.fixed(interval)]: recurs forever on the grid of
    [interval] that starts with the first step. The state holds the
    time of the first step with the time of the last run decided, and
    the number of steps; a step that comes more than one interval after
    the last run is running behind and recurs at once. [Z.rem] is the
    remainder of JavaScript. *)
Definition fixed (interval : Z) : t :=
  {| state := option (Z * Z) * nat;
     initial := (None, O);
     step := fun now s =>
       match fst s with
       | None =>
           Some ((Some (now, now + interval), S (snd s)), now + interval)%Z
       | Some (startMillis, lastRun) =>
           let runningBehind := Z.gtb now (lastRun + interval) in
           let boundary :=
             if Z.eqb interval 0 then interval
             else (interval - Z.rem (now - startMillis) interval)%Z in
           let sleepTime := if Z.eqb boundary 0 then interval else boundary in
           let nextRun :=
             if runningBehind then now else (now + sleepTime)%Z in
           Some ((Some (startMillis, nextRun), S (snd s)), nextRun)
       end |}.

(** [Schedule.recurs(n)]: recurs [n] times, at once. *)
Definition recurs (n : nat) : t :=
  {| state := nat;
     initial := O;
     step := fun now k => if Nat.ltb k n then Some (S k, now) else None |}.

(** [Schedule.intersect]: continues while both do, from the later of
    the two times. *)
Definition intersect (self that : t) : t :=
  {| state := state self * state that;
     initial := (initial self, initial that);
     step := fun now s =>
       match step self now (fst s), step that now (snd s) with
       | Some (s1, t1), Some (s2, t2) => Some ((s1, s2), Z.max t1 t2)
       | _, _ => None
       end |}.

End Schedule.

Module Duration.
Definition millis (n : Z) : Z := n.
End Duration.

(** The wait of the schedule driver: it sleeps until the recurrence may
    start, and not at all when that time has come. *)
Definition sleepFor (millis : Z) : Trace :=
  if Z.leb millis 0 then [] else [Sleep millis].

(** [Effect.retry({ schedule, while })]: after a typed failure the
    schedule is stepped with the time of the clock, and [self] runs
    again if the schedule continues and the failure satisfies [while].
    A schedule may recur forever, so the loop is followed for at most
    [fuel] attempts; [None] is a run that needs more. *)
Fixpoint retry_loop {A} (fuel : nat) (policy : Schedule.t)
    (st : Schedule.state policy) (while : Error -> bool)
    (self : Effect.t A) : Effect.t A :=
  fun w h =>
    match fuel with
    | O => None
    | S fuel' =>
        match self w h with
        | Some (ev, Failure (Failed e)) =>
            let now := clock w (h ++ ev) in
            match Schedule.step policy now st with
            | Some (st', start) =>
                if while e then
                  Effect.after (ev ++ sleepFor (start - now))
                    (retry_loop fuel' policy st' while self) w h
                else Some (ev, Failure (Failed e))
            | None => Some (ev, Failure (Failed e))
            end
        | r => r
        end
    end.

Definition retry {A} (fuel : nat) (policy : Schedule.t)
    (while : Error -> bool) (self : Effect.t A) : Effect.t A :=
  retry_loop fuel policy (Schedule.initial policy) while self.

(** ** The service *)

(** [retryPolicy] *)
Definition retryPolicy : Schedule.t :=
  Schedule.intersect (Schedule.fixed (Duration.millis 500)) (Schedule.recurs 2).

(** [messageInfo], the function the classifier is asked to call. *)
Definition messageInfo : string := "message_info".

(** The collaborators' methods as effects. *)
Definition openai_call (fn input : string) : Effect.t MessageInfo :=
  Effect.request (OpenAIFn fn input) (fun w h => openai_fn w h fn input).

Definition channels_call (guild channel : option string) : Effect.t Channel :=
  Effect.request (ChannelsGet guild channel)
    (fun w h => channels_get w h guild channel).

Definition startThreadFromMessage (channel message : string)
    (params : StartThreadParams) : Effect.t Thread :=
  Effect.request (StartThreadFromMessage channel message params)
    (fun w h => rest_startThreadFromMessage w h channel message params).

Definition createMessage (channel : string) (params : CreateMessageParams)
  : Effect.t unit :=
  Effect.request (CreateMessage channel params)
    (fun w h => rest_createMessage w h channel params).

Definition modifyChannel (channel : option string)
    (params : ModifyChannelParams) : Effect.t unit :=
  Effect.request (ModifyChannel channel params)
    (fun w h => rest_modifyChannel w h channel params).

(** [TreeFormatter.formatIssueSync] on the issue of a [ParseError]; no
    other error is given to it. *)
Definition formatIssueSync (w : World) (e : Error) : string :=
  match e with
  | ParseError path => formatIssue w path
  | _ => EmptyString
  end.

(** What the two decoders return. *)
Record EligibleChannelT := {
  eligible_channel_id : string;
  eligible_topic : string;
  eligible_channel_type : Z
}.

Record EligibleMessageT := {
  eligible_id : string;
  eligible_message_channel_id : string;
  eligible_type : Z;
  eligible_author_bot : option bool
}.

(** The message posted under a new thread: one row, two buttons. *)
Definition controls (authorId : string) : CreateMessageParams :=
  {| msg_content := None;
     msg_components := Some
       [[ {| button_custom_id := "edit_" ++ authorId;
             button_label := "Edit title";
             button_style := None |};
          {| button_custom_id := "archive_" ++ authorId;
             button_label := "Archive";
             button_style := Some SECONDARY |} ]] |}.

(** The three escaped backquotes of the hint. *)
Definition escaped_fence : string := "\`\`\`".

Definition hint_content : string :=
  "It looks like your code examples might be missing code fences." ++ Js.nl
  ++ Js.nl
  ++ "You can wrap your code like this:" ++ Js.nl
  ++ Js.nl
  ++ escaped_fence ++ "ts" ++ Js.nl
  ++ "const a = 123" ++ Js.nl
  ++ escaped_fence ++ Js.nl.

Definition hint : CreateMessageParams :=
  {| msg_content := Some hint_content; msg_components := None |}.

(** The classification used when the classifier has failed. *)
Definition fallbackInfo (message : Message) : MessageInfo :=
  let displayName :=
    match match member message with
          | Some m => nick m
          | None => None
          end with
    | Some n => n
    | None => username (author message)
    end in
  {| short_title := displayName ++ "'s thread";
     has_code_examples := false;
     has_code_fences := false |}.

(** The [info] step: the classifier call, retried, logged and replaced
    by the fallback when it fails. *)
Definition classify (fuel : nat) (message : Message) : Effect.t MessageInfo :=
  Effect.orElseSucceed
    (Effect.tapErrorCause
       (retry fuel retryPolicy
          (fun err => String.eqb (_tag err) "OpenAIError")
          (openai_call messageInfo (content message)))
       (fun c => Effect.log LevelInfo (LogCause c)))
    (fallbackInfo message).

Section Make.

Variable topicKeyword : string.

(** The decoder stops at the first field that fails; the literal
    [type] is decoded before the filtered [topic]. *)
Definition EligibleChannel (u : Channel) : Effect.t EligibleChannelT :=
  if Z.eqb (channel_type u) ChannelType_GUILD_TEXT then
    match topic u with
    | Some t =>
        if Js.includes t topicKeyword
        then Effect.succeed
               {| eligible_channel_id := channel_id u;
                  eligible_topic := t;
                  eligible_channel_type := channel_type u |}
        else Effect.fail (ParseError ["topic"])
    | None => Effect.fail (ParseError ["topic"])
    end
  else Effect.fail (ParseError ["type"]).

Definition EligibleMessage (u : Message) : Effect.t EligibleMessageT :=
  if Z.eqb (message_type u) MessageType_DEFAULT then
    match bot (author u) with
    | Some true => Effect.fail (ParseError ["author"; "bot"])
    | b =>
        Effect.succeed
          {| eligible_id := message_id u;
             eligible_message_channel_id := message_channel_id u;
             eligible_type := message_type u;
             eligible_author_bot := b |}
    end
  else Effect.fail (ParseError ["type"]).

(** The steps of the handler of one MESSAGE_CREATE event, before its two
    catches: the eligibility of the message and of its channel, the
    classification, the thread, the controls and the hint. Nothing
    reads the value of the handler, which is dropped here. *)
Definition pipeline (fuel : nat) (message : Message) : Effect.t unit :=
  Effect.as_
    (_ <- EligibleMessage message ;;
     channel <- (u <- channels_call (message_guild_id message)
                           (Some (message_channel_id message)) ;;
                 EligibleChannel u) ;;
     info <- classify fuel message ;;
     thread <- startThreadFromMessage (eligible_channel_id channel)
                 (message_id message)
                 {| thread_name := truncate (short_title info) 100;
                    auto_archive_duration := 1440 |} ;;
     _ <- createMessage (thread_id thread)
            (controls (user_id (author message))) ;;
     _ <- Effect.when (createMessage (thread_id thread) hint)
            (missingCodeFences info) ;;
     Effect.succeed thread)
    tt.

(** The handler of one MESSAGE_CREATE event: a [ParseError] is logged
    for debugging, every other cause as an error. *)
Definition handleMessage (fuel : nat) (message : Message) : Effect.t unit :=
  Effect.catchAllCause
    (Effect.catchTag "ParseError"
       (pipeline fuel message)
       (fun error w =>
          Effect.log LevelDebug (LogText (formatIssueSync w error)) w))
    (fun cause => Effect.log LevelError (LogCause cause)).

(** The handlers of a list of events, run one after the other. The
    gateway's [handleDispatch] starts each handler when its event
    arrives and does not wait for the one before; this is the run in
    which no two handlers overlap. *)
Fixpoint handleDispatch (handle : Message -> Effect.t unit)
    (events : list Message) : Effect.t unit :=
  match events with
  | [] => Effect.succeed tt
  | m :: rest => handle m ;;; handleDispatch handle rest
  end.

Definition handleMessages (fuel : nat) (events : list Message)
  : Effect.t unit :=
  handleDispatch (handleMessage fuel) events.

End Make.

(** *** Interactions *)

Definition hasManage : Z -> bool := Perms_has PermissionFlag_MANAGE_CHANNELS.

(** [Ix.MessageComponentData] *)
Definition MessageComponentData (ix : Interaction) : Effect.t string :=
  match ix_data ix with
  | MessageComponent custom_id => Effect.succeed custom_id
  | ModalSubmit _ _ => Effect.die "MessageComponentData: not a component"
  end.

(** [Ix.modalValue] *)
Definition modalValue (name : string) (ix : Interaction) : Effect.t string :=
  match ix_data ix with
  | ModalSubmit _ values =>
      match find (fun p => String.eqb (fst p) name) values with
      | Some (_, v) => Effect.succeed v
      | None => Effect.fail (ModalValueNotFound name)
      end
  | MessageComponent _ => Effect.die "modalValue: not a modal"
  end.

(** The [canEdit] test of [withEditPermissions]; reading the permissions
    of an interaction that has none throws. *)
Definition canEdit (ix : Interaction) (custom_id : string) : Exit bool :=
  let authorId := nth_error (Js.split "_" custom_id) 1 in
  let userId :=
    match ix_member ix with
    | Some m => match member_user m with
                | Some u => Some (user_id u)
                | None => None
                end
    | None => None
    end in
  if Js.strict_eq authorId userId then Success true
  else match ix_member ix with
       | Some m =>
           match permissions m with
           | Some p => Success (hasManage p)
           | None =>
               Failure (Died "TypeError: Cannot convert undefined to a BigInt")
           end
       | None => Failure (Died "TypeError: Cannot read properties of undefined")
       end.

Definition withEditPermissions {A} (self : Interaction -> Effect.t A)
  : Interaction -> Effect.t A :=
  fun ix =>
    ctx <- MessageComponentData ix ;;
    can <- Effect.fromExit (canEdit ix ctx) ;;
    _ <- (if negb can
          then Effect.fail (PermissionsError "edit" "thread")
          else Effect.succeed tt) ;;
    self ix.

Definition edit : Interaction -> Effect.t InteractionResponse :=
  withEditPermissions
    (fun ix =>
       Effect.map
         (channels_call (ix_guild_id ix) (ix_channel_id ix))
         (fun channel =>
            MODAL "edit" "Edit title"
              [ {| input_custom_id := "title";
                   input_label := "New title";
                   max_length := 100;
                   input_value := channel_name channel |} ])).

Definition editSubmit : Interaction -> Effect.t InteractionResponse :=
  fun ix =>
    Effect.as_
      (Effect.tap
         (title <- modalValue "title" ix ;;
          context <- Effect.succeed ix ;;
          Effect.succeed (title, context))
         (fun tc =>
            modifyChannel (ix_channel_id (snd tc))
              {| new_name := Some (fst tc); archived := None |}))
      DEFERRED_UPDATE_MESSAGE.

Definition archive : Interaction -> Effect.t InteractionResponse :=
  withEditPermissions
    (fun ix =>
       Effect.as_
         (Effect.tap (Effect.succeed ix)
            (fun ix =>
               modifyChannel (ix_channel_id ix)
                 {| new_name := None; archived := Some true |}))
         DEFERRED_UPDATE_MESSAGE).

(** The reply to a [PermissionsError]. *)
Definition permissionDenied (e : Error) : Effect.t InteractionResponse :=
  match e with
  | PermissionsError action subject =>
      Effect.succeed
        (CHANNEL_MESSAGE_WITH_SOURCE MessageFlag_EPHEMERAL
           ("You don't have permission to " ++ action ++ " this "
            ++ subject ++ "."))
  | _ => Effect.fail e
  end.

(** The handler the builder selects: [archive], [edit], [editSubmit] in
    the order they were added. *)
Definition route (i : Interaction) : Effect.t InteractionResponse :=
  match ix_data i with
  | MessageComponent custom_id =>
      if Js.startsWith custom_id "archive_" then archive i
      else if Js.startsWith custom_id "edit_" then edit i
      else Effect.fail DefinitionNotFound
  | ModalSubmit custom_id _ =>
      if String.eqb custom_id "edit" then editSubmit i
      else Effect.fail DefinitionNotFound
  end.

(** [ix]: the registered builder; the response, if any, is what the
    platform is sent. *)
Definition ix (i : Interaction) : Effect.t (option InteractionResponse) :=
  Effect.catchAllCause
    (Effect.map (Effect.catchTag "PermissionsError" (route i) permissionDenied)
       Some)
    (fun cause => Effect.as_ (Effect.log LevelError (LogCause cause)) None).

(** ** The specification's words, for comparison *)

Module Spec.

(** The bounded loop of the specification: an attempt that fails with
    the transient kind is repeated 500 ms later while retries are left;
    any other outcome ends the loop. *)
Fixpoint attempts (retries : nat) (w : World) (fn input : string) (h : Trace)
  : Trace * Exit MessageInfo :=
  match openai_fn w h fn input with
  | Failure (Failed e) =>
      if String.eqb (_tag e) "OpenAIError" then
        match retries with
        | O => ([OpenAIFn fn input], Failure (Failed e))
        | S n =>
            let next :=
              attempts n w fn input (h ++ [OpenAIFn fn input; Sleep 500]) in
            (OpenAIFn fn input :: Sleep 500 :: fst next, snd next)
        end
      else ([OpenAIFn fn input], Failure (Failed e))
  | r => ([OpenAIFn fn input], r)
  end.

(** The substring after the first [sep], if there is one. *)
Fixpoint afterFirst (sep : ascii) (s : string) : option string :=
  match s with
  | EmptyString => None
  | String c s' => if Ascii.eqb c sep then Some s' else afterFirst sep s'
  end.

(** The author id of the specification's authorization rule. *)
Definition authorId (custom_id : string) : option string :=
  afterFirst "_" custom_id.

End Spec.

(** ** The retry of the classifier, attempt by attempt *)

(** The wait [retryPolicy] decides at its second step, from the times
    of the first and of the second failure: the rest of the 500 ms
    interval the second failure fell into, counted from the first
    failure, and nothing when the second failure came more than 500 ms
    after the time the second attempt was due. *)
Definition secondWait (now1 now2 : Z) : Z :=
  if Z.gtb now2 (now1 + 500 + 500) then 0%Z
  else (500 - Z.rem (now2 - now1) 500)%Z.

(** What [retry] under [retryPolicy] comes to on the classifier call,
    with the time of the clock read after each failure. *)
Definition retried (w : World) (fn input : string) (h : Trace)
  : Trace * Exit MessageInfo :=
  let ask := OpenAIFn fn input in
  match openai_fn w h fn input with
  | Failure (Failed e1) =>
      if String.eqb (_tag e1) "OpenAIError" then
        match openai_fn w (h ++ [ask; Sleep 500]) fn input with
        | Failure (Failed e2) =>
            if String.eqb (_tag e2) "OpenAIError" then
              let pause :=
                sleepFor (secondWait (clock w (h ++ [ask]))
                            (clock w (h ++ [ask; Sleep 500; ask]))) in
              ([ask; Sleep 500; ask] ++ pause ++ [ask],
               openai_fn w (h ++ [ask; Sleep 500; ask] ++ pause) fn input)
            else ([ask; Sleep 500; ask], Failure (Failed e2))
        | r2 => ([ask; Sleep 500; ask], r2)
        end
      else ([ask], Failure (Failed e1))
  | r1 => ([ask], r1)
  end.

(** ** Reading a trace *)

Definition isAttempt (e : Event) : bool :=
  match e with OpenAIFn _ _ => true | _ => false end.

Definition isSleep (e : Event) : bool :=
  match e with Sleep _ => true | _ => false end.

Definition isThreadRequest (e : Event) : bool :=
  match e with StartThreadFromMessage _ _ _ => true | _ => false end.

Definition isHint (e : Event) : bool :=
  match e with
  | CreateMessage _ p =>
      match msg_content p with
      | Some c => String.eqb c hint_content
      | None => false
      end
  | _ => false
  end.

(** A request that changes something on the platform, or reads the
    channel directory. *)
Definition isRequest (e : Event) : bool :=
  match e with
  | ChannelsGet _ _ | StartThreadFromMessage _ _ _ | CreateMessage _ _
  | ModifyChannel _ _ => true
  | _ => false
  end.

Definition count (p : Event -> bool) (ev : Trace) : nat :=
  List.length (List.filter p ev).

(** The user id an interaction is invoked with, if any. *)
Definition invokingUserId (i : Interaction) : option string :=
  match ix_member i with
  | Some m => match member_user m with
              | Some u => Some (user_id u)
              | None => None
              end
  | None => None
  end.

(** The member's permission set contains the MANAGE_CHANNELS bit. *)
Definition holdsManageChannels (i : Interaction) : Prop :=
  exists m p, ix_member i = Some m /\ permissions m = Some p
              /\ Z.testbit p 4 = true.

(** No underscore occurs in [s]. *)
Fixpoint noUnderscore (s : string) : bool :=
  match s with
  | EmptyString => true
  | String c s' => negb (Ascii.eqb c "_") && noUnderscore s'
  end.

(** The message is eligible on its own: type and author. *)
Definition eligibleMessage (m : Message) : Prop :=
  message_type m = MessageType_DEFAULT /\ bot (author m) <> Some true.

(** The channel is eligible: a text channel whose topic has the keyword. *)
Definition eligibleChannel (topicKeyword : string) (c : Channel) : Prop :=
  channel_type c = ChannelType_GUILD_TEXT
  /\ exists t, topic c = Some t /\ Js.includes t topicKeyword = true.

(** The steps of [pipeline] that follow the classification, under a
    name of their own for the proofs. *)
Definition threadSteps (channel : string) (message : Message)
    (info : MessageInfo) : Effect.t Thread :=
  thread <- startThreadFromMessage channel (message_id message)
              {| thread_name := truncate (short_title info) 100;
                 auto_archive_duration := 1440 |} ;;
  _ <- createMessage (thread_id thread)
         (controls (user_id (author message))) ;;
  _ <- Effect.when (createMessage (thread_id thread) hint)
         (missingCodeFences info) ;;
  Effect.succeed thread.

(** The request that opens the thread of [message] with [info]. *)
Definition threadRequest (channel : string) (message : Message)
    (info : MessageInfo) : Event :=
  StartThreadFromMessage channel (message_id message)
    {| thread_name := truncate (short_title info) 100;
       auto_archive_duration := 1440 |}.

(** The lookup of the channel of [message]. *)
Definition channelLookup (message : Message) : Event :=
  ChannelsGet (message_guild_id message) (Some (message_channel_id message)).

(** The field on which the decoding of a message fails, if any. *)
Definition messageIssue (m : Message) : option (list string) :=
  if Z.eqb (message_type m) MessageType_DEFAULT then
    match bot (author m) with
    | Some true => Some ["author"; "bot"]
    | _ => None
    end
  else Some ["type"].

(** The field on which the decoding of a channel fails, if any. *)
Definition channelIssue (topicKeyword : string) (c : Channel)
  : option (list string) :=
  if Z.eqb (channel_type c) ChannelType_GUILD_TEXT then
    match topic c with
    | Some t => if Js.includes t topicKeyword then None else Some ["topic"]
    | None => Some ["topic"]
    end
  else Some ["type"].

(** The entry the handler of a message logs for the cause its pipeline
    ended with. *)
Definition topLevelLog (w : World) (c : Cause) : Event :=
  match c with
  | Failed e =>
      if String.eqb (_tag e) "ParseError"
      then Log LevelDebug (LogText (formatIssueSync w e))
      else Log LevelError (LogCause c)
  | Died _ => Log LevelError (LogCause c)
  end.

(** More ways to read a trace. *)
Definition isPost (e : Event) : bool :=
  match e with CreateMessage _ _ => true | _ => false end.

Definition isModify (e : Event) : bool :=
  match e with ModifyChannel _ _ => true | _ => false end.

Definition isLookup (e : Event) : bool :=
  match e with ChannelsGet _ _ => true | _ => false end.

Definition isLog (e : Event) : bool :=
  match e with Log _ _ => true | _ => false end.

(** The buttons of a message, row after row. *)
Definition buttonsOf (p : CreateMessageParams) : list Button :=
  match msg_components p with
  | Some rows => List.concat rows
  | None => []
  end.

(** The change [archive] asks for, and the one [editSubmit] asks for. *)
Definition archived_true : ModifyChannelParams :=
  {| new_name := None; archived := Some true |}.

Definition renamed (title : string) : ModifyChannelParams :=
  {| new_name := Some title; archived := None |}.

(** The modal [edit] answers with, for a channel called [name]. *)
Definition titleModal (name : option string) : InteractionResponse :=
  MODAL "edit" "Edit title"
    [ {| input_custom_id := "title";
         input_label := "New title";
         max_length := 100;
         input_value := name |} ].

(** The reply to a refused click. *)
Definition denial (action subject : string) : InteractionResponse :=
  CHANNEL_MESSAGE_WITH_SOURCE MessageFlag_EPHEMERAL
    ("You don't have permission to " ++ action ++ " this " ++ subject ++ ".").

(** A modal as its submission comes back: its custom id and, for each
    of its inputs, the value [fill] gives it. *)
Definition submission (modal : InteractionResponse)
    (fill : TextInput -> string) : option InteractionData :=
  match modal with
  | MODAL custom_id _ inputs =>
      Some (ModalSubmit custom_id
              (List.map (fun input => (input_custom_id input, fill input))
                 inputs))
  | _ => None
  end.

(** The traces the steps after the classification can leave, by the
    answers of the platform. *)
Inductive ThreadTrace (w : World) (h : Trace) (channel : string)
    (m : Message) (info : MessageInfo) : Trace -> Prop :=
| thread_refused (c : Cause) :
    rest_startThreadFromMessage w h channel (message_id m)
      {| thread_name := truncate (short_title info) 100;
         auto_archive_duration := 1440 |} = Failure c ->
    ThreadTrace w h channel m info [threadRequest channel m info]
| controls_refused (thread : Thread) (c : Cause) :
    rest_startThreadFromMessage w h channel (message_id m)
      {| thread_name := truncate (short_title info) 100;
         auto_archive_duration := 1440 |} = Success thread ->
    rest_createMessage w (h ++ [threadRequest channel m info])
      (thread_id thread) (controls (user_id (author m))) = Failure c ->
    ThreadTrace w h channel m info
      [threadRequest channel m info;
       CreateMessage (thread_id thread) (controls (user_id (author m)))]
| controls_posted (thread : Thread) :
    rest_startThreadFromMessage w h channel (message_id m)
      {| thread_name := truncate (short_title info) 100;
         auto_archive_duration := 1440 |} = Success thread ->
    rest_createMessage w (h ++ [threadRequest channel m info])
      (thread_id thread) (controls (user_id (author m))) = Success tt ->
    missingCodeFences info = false ->
    ThreadTrace w h channel m info
      [threadRequest channel m info;
       CreateMessage (thread_id thread) (controls (user_id (author m)))]
| hint_posted (thread : Thread) :
    rest_startThreadFromMessage w h channel (message_id m)
      {| thread_name := truncate (short_title info) 100;
         auto_archive_duration := 1440 |} = Success thread ->
    rest_createMessage w (h ++ [threadRequest channel m info])
      (thread_id thread) (controls (user_id (author m))) = Success tt ->
    missingCodeFences info = true ->
    ThreadTrace w h channel m info
      [threadRequest channel m info;
       CreateMessage (thread_id thread) (controls (user_id (author m)));
       CreateMessage (thread_id thread) hint].

(** The traces the handler of a message can leave. *)
Inductive HandlerTrace (topicKeyword : string) (fuel : nat) (w : World)
    (h : Trace) (m : Message) : Trace -> Prop :=
| message_dropped (path : list string) :
    messageIssue m = Some path ->
    HandlerTrace topicKeyword fuel w h m
      [Log LevelDebug (LogText (formatIssue w path))]
| channel_not_found (c : Cause) :
    messageIssue m = None ->
    channels_get w h (message_guild_id m) (Some (message_channel_id m))
    = Failure c ->
    HandlerTrace topicKeyword fuel w h m [channelLookup m; topLevelLog w c]
| channel_dropped (ch : Channel) (path : list string) :
    messageIssue m = None ->
    channels_get w h (message_guild_id m) (Some (message_channel_id m))
    = Success ch ->
    channelIssue topicKeyword ch = Some path ->
    HandlerTrace topicKeyword fuel w h m
      [channelLookup m; Log LevelDebug (LogText (formatIssue w path))]
| classifier_died (ch : Channel) (evc : Trace) (c : Cause) :
    messageIssue m = None ->
    channels_get w h (message_guild_id m) (Some (message_channel_id m))
    = Success ch ->
    channelIssue topicKeyword ch = None ->
    classify fuel m w (h ++ [channelLookup m]) = Some (evc, Failure c) ->
    HandlerTrace topicKeyword fuel w h m
      (channelLookup m :: evc ++ [topLevelLog w c])
| thread_opened (ch : Channel) (evc evt logs : Trace) (info : MessageInfo) :
    messageIssue m = None ->
    channels_get w h (message_guild_id m) (Some (message_channel_id m))
    = Success ch ->
    channelIssue topicKeyword ch = None ->
    classify fuel m w (h ++ [channelLookup m]) = Some (evc, Success info) ->
    ThreadTrace w (h ++ channelLookup m :: evc) (channel_id ch) m info evt ->
    logs = [] \/ (exists c, logs = [topLevelLog w c]) ->
    HandlerTrace topicKeyword fuel w h m
      (channelLookup m :: evc ++ evt ++ logs).

(** *** The log level of [main.ts] *)

Module Main.

(** The two minimum levels [LogLevelLive] chooses between. *)
Inductive MinimumLogLevel := LogLevel_All | LogLevel_Info.

(** [LogLevelLive]: [DEBUG] is the boolean of the configuration, if it
    is set; it defaults to [false]. *)
Definition LogLevelLive (DEBUG : option bool) : MinimumLogLevel :=
  let debug := match DEBUG with Some b => b | None => false end in
  if debug then LogLevel_All else LogLevel_Info.

(** [Logger.minimumLogLevel]: an entry below the minimum is dropped. *)
Definition printed (minimum : MinimumLogLevel) (level : LogLevel) : bool :=
  match minimum, level with
  | LogLevel_All, _ => true
  | LogLevel_Info, LevelDebug => false
  | LogLevel_Info, _ => true
  end.

(** The log entries of a trace that reach the logger's output. *)
Definition output (minimum : MinimumLogLevel) (ev : Trace) : Trace :=
  List.filter
    (fun e => match e with
              | Log level _ => printed minimum level
              | _ => false
              end) ev.

End Main.

(** ** Sample data *)

Module Samples.

Definition keyword : string := "[threads]".

Definition alice : User :=
  {| user_id := "1001"; username := "alice"; bot := None |}.

Definition question : Message :=
  {| message_id := "m1";
     message_channel_id := "c1";
     message_guild_id := Some "g1";
     message_type := 0;
     author := alice;
     member := Some {| nick := Some "Al" |};
     content := "How do I decode this?" |}.

Definition help : Channel :=
  {| channel_id := "c1";
     channel_name := Some "help";
     topic := Some "Ask here [threads]";
     channel_type := 0 |}.

Definition answer : MessageInfo :=
  {| short_title := "Decoding question";
     has_code_examples := true;
     has_code_fences := false |}.

(** The time a history takes when each call of the classifier lasts
    [perCall] milliseconds and nothing but these calls and the waits
    takes time. *)
Fixpoint elapsed (perCall : Z) (h : Trace) : Z :=
  match h with
  | [] => 0%Z
  | OpenAIFn _ _ :: rest => (perCall + elapsed perCall rest)%Z
  | Sleep millis :: rest => (millis + elapsed perCall rest)%Z
  | _ :: rest => elapsed perCall rest
  end.

(** A stand-in for the formatter's tree. *)
Definition tree (path : list string) : string :=
  "is missing or unexpected: " ++ String.concat "." path.

(** A world whose classifier always gives [classifier] at once and
    whose other collaborators always succeed. *)
Definition world (classifier : Exit MessageInfo) : World :=
  {| openai_fn := fun _ _ _ => classifier;
     channels_get := fun _ _ _ => Success help;
     rest_startThreadFromMessage :=
       fun _ _ _ _ => Success {| thread_id := "t1" |};
     rest_createMessage := fun _ _ _ => Success tt;
     rest_modifyChannel := fun _ _ _ => Success tt;
     clock := elapsed 0;
     formatIssue := tree |}.

(** A world whose classifier is down and takes [perCall] milliseconds
    to say so. *)
Definition slow (perCall : Z) : World :=
  {| openai_fn := fun _ _ _ => Failure (Failed (OpenAIError "503"));
     channels_get := fun _ _ _ => Success help;
     rest_startThreadFromMessage :=
       fun _ _ _ _ => Success {| thread_id := "t1" |};
     rest_createMessage := fun _ _ _ => Success tt;
     rest_modifyChannel := fun _ _ _ => Success tt;
     clock := elapsed perCall;
     formatIssue := tree |}.

Definition down : Exit MessageInfo := Failure (Failed (OpenAIError "503")).

(** A title of 150 characters. *)
Fixpoint times (n : nat) (s : string) : string :=
  match n with
  | O => ""
  | S k => s ++ times k s
  end.

Definition longAnswer : MessageInfo :=
  {| short_title := times 15 "0123456789";
     has_code_examples := false;
     has_code_fences := false |}.

(** A click on a button of the thread of [alice], by [user] holding
    [perms]. *)
Definition click (custom_id user : string) (perms : Z) : Interaction :=
  {| ix_guild_id := Some "g1";
     ix_channel_id := Some "t1";
     ix_member := Some {| member_user := Some {| user_id := user;
                                                  username := "someone";
                                                  bot := None |};
                          permissions := Some perms |};
     ix_data := MessageComponent custom_id |}.

(** The submission of the title modal. *)
Definition submit (title : string) : Interaction :=
  {| ix_guild_id := Some "g1";
     ix_channel_id := Some "t1";
     ix_member := None;
     ix_data := ModalSubmit "edit" [("title", title)] |}.

(** A world whose classifier fails on its first call with the
    transient kind and answers from the second call on. *)
Definition flaky : World :=
  {| openai_fn := fun h _ _ =>
       if Nat.eqb (count isAttempt h) 0 then down else Success answer;
     channels_get := fun _ _ _ => Success help;
     rest_startThreadFromMessage :=
       fun _ _ _ _ => Success {| thread_id := "t1" |};
     rest_createMessage := fun _ _ _ => Success tt;
     rest_modifyChannel := fun _ _ _ => Success tt;
     clock := elapsed 0;
     formatIssue := tree |}.

(** A world whose platform accepts the thread and refuses everything
    else. *)
Definition refusing : World :=
  {| openai_fn := fun _ _ _ => Success answer;
     channels_get := fun _ _ _ => Success help;
     rest_startThreadFromMessage :=
       fun _ _ _ _ => Success {| thread_id := "t1" |};
     rest_createMessage :=
       fun _ _ _ => Failure (Failed (DiscordRESTError "403"));
     rest_modifyChannel :=
       fun _ _ _ => Failure (Failed (DiscordRESTError "403"));
     clock := elapsed 0;
     formatIssue := tree |}.

(** A click that carries no member. *)
Definition strangerClick (custom_id : string) : Interaction :=
  {| ix_guild_id := None;
     ix_channel_id := Some "t1";
     ix_member := None;
     ix_data := MessageComponent custom_id |}.

(** A submission without a title field. *)
Definition emptySubmit : Interaction :=
  {| ix_guild_id := Some "g1";
     ix_channel_id := Some "t1";
     ix_member := None;
     ix_data := ModalSubmit "edit" [("name", "x")] |}.

End Samples.

(** ** Properties *)

Unset Implicit Arguments.

(** *** Running effects *)

(** Unfolds the combinators of a run and computes. *)
Ltac run_effect :=
  repeat (cbv beta delta
            [Effect.flatMap Effect.after Effect.map Effect.as_ Effect.tap
             Effect.when Effect.catchAllCause Effect.catchTag
             Effect.tapErrorCause Effect.orElseSucceed Effect.succeed
             Effect.fail Effect.die Effect.failCause Effect.fromExit
             Effect.request Effect.log];
          cbn beta iota zeta match).

(** *** The retry policy *)

Lemma count_app (p : Event -> bool) (a b : Trace) :
  count p (a ++ b) = count p a + count p b.
Proof. unfold count. now rewrite List.filter_app, List.length_app. Qed.

Lemma count_cons (p : Event -> bool) (e : Event) (ev : Trace) :
  count p (e :: ev) = (if p e then 1 else 0) + count p ev.
Proof. unfold count. simpl. now destruct (p e). Qed.

Ltac count_events := repeat (rewrite count_cons || rewrite count_app).

Lemma rem_500 (x : Z) : (-500 < Z.rem x 500 < 500)%Z.
Proof. pose proof (Z.rem_bound_abs x 500). lia. Qed.

(** The three steps of [retryPolicy]: 500 ms after the first failure,
    [secondWait] after the second, and no third recurrence. *)
Lemma retryPolicy_first (now : Z) :
  Schedule.step retryPolicy now (Schedule.initial retryPolicy)
  = Some (((Some (now, now + 500)%Z, 1), 1), (now + 500)%Z).
Proof.
  unfold retryPolicy, Duration.millis.
  cbn [Schedule.step Schedule.intersect Schedule.fixed Schedule.recurs
       Schedule.initial fst snd Nat.ltb Nat.leb].
  do 2 f_equal. lia.
Qed.

Lemma retryPolicy_second (now1 now2 : Z) :
  Schedule.step retryPolicy now2 ((Some (now1, now1 + 500)%Z, 1), 1)
  = Some (((Some (now1, now2 + secondWait now1 now2)%Z, 2), 2),
          (now2 + secondWait now1 now2)%Z).
Proof.
  unfold retryPolicy, Duration.millis, secondWait.
  cbn [Schedule.step Schedule.intersect Schedule.fixed Schedule.recurs
       fst snd Nat.ltb Nat.leb].
  change (Z.eqb 500 0) with false. cbn match.
  pose proof (rem_500 (now2 - now1)) as Hrem.
  destruct (Z.eqb_spec (500 - Z.rem (now2 - now1) 500) 0) as [E|E]; [lia|].
  destruct (Z.gtb now2 (now1 + 500 + 500)).
  - rewrite Z.add_0_r. do 2 f_equal. lia.
  - do 2 f_equal. lia.
Qed.

Lemma retryPolicy_third (now : Z) (s : option (Z * Z)) :
  Schedule.step retryPolicy now ((s, 2), 2) = None.
Proof. cbn. now destruct s as [[a b]|]. Qed.

Lemma sleepFor_500 : sleepFor 500 = [Sleep 500].
Proof. reflexivity. Qed.

Lemma sleepFor_inv (d : Z) :
  (sleepFor d = [] /\ (d <= 0)%Z) \/ (sleepFor d = [Sleep d] /\ (0 < d)%Z).
Proof.
  unfold sleepFor. destruct (Z.leb_spec d 0); [left|right]; split;
    try reflexivity; lia.
Qed.

(** The retry of the classifier call under [retryPolicy] is the run
    [retried] spells out. *)
Lemma retry_unrolled (fuel : nat) (w : World) (fn input : string) (h : Trace) :
  3 <= fuel ->
  retry fuel retryPolicy (fun err => String.eqb (_tag err) "OpenAIError")
    (openai_call fn input) w h
  = Some (retried w fn input h).
Proof.
  intros Hfuel.
  destruct fuel as [|[|[|fuel]]]; try lia.
  unfold retry, openai_call, retried.
  cbn [retry_loop]. run_effect.
  destruct (openai_fn w h fn input) as [a|[e|d]]; try reflexivity.
  rewrite retryPolicy_first.
  destruct (String.eqb (_tag e) "OpenAIError"); try reflexivity.
  replace (clock w (h ++ [OpenAIFn fn input]) + 500
           - clock w (h ++ [OpenAIFn fn input]))%Z with 500%Z by lia.
  rewrite sleepFor_500. run_effect. cbn [List.app].
  destruct (openai_fn w (h ++ _) fn input) as [a1|[e1|d1]]; try reflexivity.
  rewrite retryPolicy_second.
  destruct (String.eqb (_tag e1) "OpenAIError"); try reflexivity.
  match goal with
  | |- context [sleepFor (?a + ?b - ?a)%Z] =>
      replace (a + b - a)%Z with b by lia
  end.
  run_effect. rewrite <- !List.app_assoc. cbn [List.app].
  destruct (openai_fn w (h ++ _) fn input) as [a2|[e2|d2]];
    try rewrite retryPolicy_third; reflexivity.
Qed.

(** Between one and three attempts, and fewer waits than attempts. *)
Lemma retried_attempts (w : World) (fn input : string) (h : Trace) :
  1 <= count isAttempt (fst (retried w fn input h)) <= 3
  /\ count isSleep (fst (retried w fn input h))
     <= count isAttempt (fst (retried w fn input h)) - 1.
Proof.
  unfold retried. cbv zeta.
  destruct (openai_fn w h fn input) as [a|[e|d]];
    try (unfold count; simpl; lia).
  destruct (String.eqb (_tag e) "OpenAIError");
    try (unfold count; simpl; lia).
  destruct (openai_fn w (h ++ [OpenAIFn fn input; Sleep 500]) fn input)
    as [a1|[e1|d1]];
    try (unfold count; simpl; lia).
  destruct (String.eqb (_tag e1) "OpenAIError");
    try (unfold count; simpl; lia).
  destruct (sleepFor_inv (secondWait (clock w (h ++ [OpenAIFn fn input]))
              (clock w (h ++ [OpenAIFn fn input; Sleep 500;
                               OpenAIFn fn input]))))
    as [[-> _]|[-> _]]; unfold count; simpl; lia.
Qed.

(** The run emits nothing but attempts and waits. *)
Lemma retried_count (p : Event -> bool) (w : World) (fn input : string)
    (h : Trace) :
  p (OpenAIFn fn input) = false ->
  (forall d, p (Sleep d) = false) ->
  count p (fst (retried w fn input h)) = 0.
Proof.
  intros Ha Hs. unfold retried. cbv zeta.
  destruct (openai_fn w h fn input) as [a|[e|d]];
    try (cbn [fst]; count_events; rewrite ?Ha, ?Hs; reflexivity).
  destruct (String.eqb (_tag e) "OpenAIError");
    try (cbn [fst]; count_events; rewrite ?Ha, ?Hs; reflexivity).
  destruct (openai_fn w (h ++ [OpenAIFn fn input; Sleep 500]) fn input)
    as [a1|[e1|d1]];
    try (cbn [fst]; count_events; rewrite ?Ha, ?Hs; reflexivity).
  destruct (String.eqb (_tag e1) "OpenAIError");
    try (cbn [fst]; count_events; rewrite ?Ha, ?Hs; reflexivity).
  destruct (sleepFor_inv (secondWait (clock w (h ++ [OpenAIFn fn input]))
              (clock w (h ++ [OpenAIFn fn input; Sleep 500;
                               OpenAIFn fn input]))))
    as [[-> _]|[-> _]];
    cbn [fst List.app]; count_events; rewrite ?Ha, ?Hs; reflexivity.
Qed.

(** Takes a trace equation [pre ++ e :: post = ev] apart, for a trace
    [ev] that is spelled out. *)
Ltac split_trace H pre :=
  repeat (destruct pre as [|? pre]; cbn [List.app] in H;
          [ try discriminate H; try (injection H; clear H; intros)
          | try discriminate H; injection H as ? H ]).

(** A wait of the run follows an attempt that failed with the transient
    kind; the first lasts 500 ms and the second what [secondWait]
    gives. *)
Lemma retried_sleep (w : World) (fn input : string) (h : Trace)
    (pre post : Trace) (d : Z) :
  fst (retried w fn input h) = pre ++ Sleep d :: post ->
  (0 < d)%Z
  /\ exists pre' e,
       pre = pre' ++ [OpenAIFn fn input]
       /\ openai_fn w (h ++ pre') fn input = Failure (Failed e)
       /\ _tag e = "OpenAIError"
       /\ (pre' = [] -> d = 500%Z)
       /\ (pre' <> [] ->
           d = secondWait (clock w (h ++ [OpenAIFn fn input]))
                 (clock w (h ++ pre))).
Proof.
  unfold retried. cbv zeta.
  destruct (openai_fn w h fn input) as [a|[e|d']] eqn:E1;
    try solve [cbn [fst]; intros H; symmetry in H; split_trace H pre].
  destruct (String.eqb (_tag e) "OpenAIError") eqn:T1;
    try solve [cbn [fst]; intros H; symmetry in H; split_trace H pre].
  apply String.eqb_eq in T1.
  assert (Hfirst :
    exists pre' e0,
      [OpenAIFn fn input] = pre' ++ [OpenAIFn fn input]
      /\ openai_fn w (h ++ pre') fn input = Failure (Failed e0)
      /\ _tag e0 = "OpenAIError"
      /\ (pre' = [] -> 500%Z = 500%Z)
      /\ (pre' <> [] ->
          500%Z = secondWait (clock w (h ++ [OpenAIFn fn input]))
                    (clock w (h ++ [OpenAIFn fn input])))).
  { exists [], e. rewrite List.app_nil_r.
    repeat split; try assumption. intros Hne. now elim Hne. }
  destruct (openai_fn w (h ++ [OpenAIFn fn input; Sleep 500]) fn input)
    as [a1|[e1|d1]] eqn:E2;
    try solve [cbn [fst]; intros H; symmetry in H; split_trace H pre;
               subst; split; [lia | exact Hfirst]].
  destruct (String.eqb (_tag e1) "OpenAIError") eqn:T2;
    try solve [cbn [fst]; intros H; symmetry in H; split_trace H pre;
               subst; split; [lia | exact Hfirst]].
  apply String.eqb_eq in T2.
  destruct (sleepFor_inv (secondWait (clock w (h ++ [OpenAIFn fn input]))
              (clock w (h ++ [OpenAIFn fn input; Sleep 500;
                               OpenAIFn fn input]))))
    as [[Hp _]|[Hp Hpos]]; rewrite Hp; cbn [fst List.app];
    intros H; symmetry in H; split_trace H pre; subst;
    try (split; [lia | exact Hfirst]).
  split; [exact Hpos|].
  exists [OpenAIFn fn input; Sleep 500], e1.
  repeat split; try assumption. discriminate.
Qed.

(** An attempt of the run that does not fail with the transient kind is
    the last, and its answer is the result. *)
Lemma retried_last (w : World) (fn input : string) (h : Trace)
    (pre post : Trace) :
  fst (retried w fn input h) = pre ++ OpenAIFn fn input :: post ->
  (forall e,
     openai_fn w (h ++ pre) fn input = Failure (Failed e) ->
     _tag e <> "OpenAIError") ->
  post = []
  /\ snd (retried w fn input h) = openai_fn w (h ++ pre) fn input.
Proof.
  unfold retried. cbv zeta.
  destruct (openai_fn w h fn input) as [a|[e0|d']] eqn:E1.
  1, 3: cbn [fst snd]; intros H Hnt; symmetry in H;
    split_trace H pre; subst; rewrite List.app_nil_r; split; congruence.
  destruct (String.eqb (_tag e0) "OpenAIError") eqn:T1.
  2: { cbn [fst snd]; intros H Hnt; symmetry in H;
       split_trace H pre; subst; rewrite List.app_nil_r; split; congruence. }
  apply String.eqb_eq in T1.
  destruct (openai_fn w (h ++ [OpenAIFn fn input; Sleep 500]) fn input)
    as [a1|[e1|d1]] eqn:E2.
  1, 3: cbn [fst snd]; intros H Hnt; symmetry in H;
    split_trace H pre; subst; rewrite ?List.app_nil_r in *;
    first [ split; congruence | exfalso; eapply Hnt; eassumption ].
  destruct (String.eqb (_tag e1) "OpenAIError") eqn:T2.
  2: { cbn [fst snd]; intros H Hnt; symmetry in H;
       split_trace H pre; subst; rewrite ?List.app_nil_r in *;
       first [ split; congruence | exfalso; eapply Hnt; eassumption ]. }
  apply String.eqb_eq in T2.
  destruct (sleepFor_inv (secondWait (clock w (h ++ [OpenAIFn fn input]))
              (clock w (h ++ [OpenAIFn fn input; Sleep 500;
                               OpenAIFn fn input]))))
    as [[Hp _]|[Hp _]]; rewrite Hp; cbn [fst snd List.app];
    intros H Hnt; symmetry in H; split_trace H pre; subst;
    rewrite ?List.app_nil_r in *;
    first [ split; congruence | exfalso; eapply Hnt; eassumption ].
Qed.

(** An attempt of the run that fails with another kind is the last. *)
Lemma retried_other_kind (w : World) (fn input : string) (h : Trace)
    (pre post : Trace) (e : Error) :
  fst (retried w fn input h) = pre ++ OpenAIFn fn input :: post ->
  openai_fn w (h ++ pre) fn input = Failure (Failed e) ->
  _tag e <> "OpenAIError" ->
  post = [] /\ snd (retried w fn input h) = Failure (Failed e).
Proof.
  intros H Hans Htag.
  destruct (retried_last w fn input h pre post H) as [Hpost Hr].
  - intros e' He'. rewrite Hans in He'. now injection He' as <-.
  - split; [exact Hpost | now rewrite Hr].
Qed.

(** The wait before the third attempt, by the time the second attempt
    took: the rest of the interval, and nothing after an attempt that
    took longer than the interval. *)
Lemma secondWait_grid (now lasted : Z) :
  (0 <= lasted)%Z ->
  secondWait now (now + 500 + lasted)
  = (if Z.gtb lasted 500 then 0
     else if Z.eqb lasted 500 then 500 else 500 - lasted)%Z.
Proof.
  intros Hl. unfold secondWait.
  destruct (Z.gtb_spec lasted 500) as [G|G];
    destruct (Z.gtb_spec (now + 500 + lasted) (now + 500 + 500)) as [G'|G'];
    try lia.
  replace (now + 500 + lasted - now)%Z with (lasted + 1 * 500)%Z by lia.
  rewrite Z.rem_mod_nonneg by lia. rewrite Z.mod_add by lia.
  destruct (Z.eqb_spec lasted 500) as [E|E].
  - subst lasted. reflexivity.
  - rewrite Z.mod_small by lia. reflexivity.
Qed.

(** The [info] step on top of the retry: the answer as it is, the
    fallback after a failure (logged), a defect left as it is. *)
Lemma classify_run (fuel : nat) (message : Message) (w : World) (h : Trace) :
  3 <= fuel ->
  classify fuel message w h
  = Some
      (let ev := fst (retried w messageInfo (content message) h) in
       match snd (retried w messageInfo (content message) h) with
       | Success info => (ev, Success info)
       | Failure (Failed e) =>
           (ev ++ [Log LevelInfo (LogCause (Failed e))],
            Success (fallbackInfo message))
       | Failure (Died d) =>
           (ev ++ [Log LevelInfo (LogCause (Died d))], Failure (Died d))
       end).
Proof.
  intros Hfuel. unfold classify.
  unfold Effect.orElseSucceed, Effect.tapErrorCause, Effect.catchAllCause.
  rewrite (retry_unrolled fuel w messageInfo (content message) h Hfuel).
  destruct (retried w messageInfo (content message) h)
    as [ev [info|[e|d]]]; reflexivity.
Qed.

(** C3, as the code has it. The classifier call is retried only after a
    failure of the transient kind ([OpenAIError]), at most twice (three
    attempts in all); a failure of another kind ends the attempts at
    once and the fallback is used. The retries are not a fixed 500 ms
    apart: they are on the 500 ms grid of [Schedule.fixed], which
    starts with the first failure. The first retry comes 500 ms after
    the first failure; the second comes after what is left of the
    interval once the second attempt has failed (500 ms less the time
    that attempt took, and 500 ms when it took exactly that), and
    without any wait when the attempt took more than 500 ms. *)
Theorem classifier_retry_bounded
    (fuel : nat) (w : World) (h : Trace) (message : Message) :
  3 <= fuel ->
  let ask := OpenAIFn messageInfo (content message) in
  exists ev r,
    retry fuel retryPolicy (fun err => String.eqb (_tag err) "OpenAIError")
      (openai_call messageInfo (content message)) w h = Some (ev, r)
    /\ 1 <= count isAttempt ev <= 3
    /\ count isSleep ev <= count isAttempt ev - 1
    /\ (forall pre post d,
          ev = pre ++ Sleep d :: post ->
          (0 < d)%Z
          /\ exists pre' e,
               pre = pre' ++ [ask]
               /\ openai_fn w (h ++ pre') messageInfo (content message)
                  = Failure (Failed e)
               /\ _tag e = "OpenAIError"
               /\ (pre' = [] -> d = 500%Z)
               /\ (pre' <> [] ->
                   d = secondWait (clock w (h ++ [ask])) (clock w (h ++ pre))))
    /\ (forall now lasted,
          (0 <= lasted)%Z ->
          secondWait now (now + 500 + lasted)
          = (if Z.gtb lasted 500 then 0
             else if Z.eqb lasted 500 then 500 else 500 - lasted)%Z)
    /\ (forall e1 e2,
          openai_fn w h messageInfo (content message) = Failure (Failed e1) ->
          _tag e1 = "OpenAIError" ->
          openai_fn w (h ++ [ask; Sleep 500]) messageInfo (content message)
          = Failure (Failed e2) ->
          _tag e2 = "OpenAIError" ->
          let pause :=
            sleepFor (secondWait (clock w (h ++ [ask]))
                        (clock w (h ++ [ask; Sleep 500; ask]))) in
          ev = [ask; Sleep 500; ask] ++ pause ++ [ask]
          /\ r = openai_fn w (h ++ [ask; Sleep 500; ask] ++ pause)
                   messageInfo (content message))
    /\ (forall pre post,
          ev = pre ++ ask :: post ->
          (forall e,
             openai_fn w (h ++ pre) messageInfo (content message)
             = Failure (Failed e) ->
             _tag e <> "OpenAIError") ->
          post = []
          /\ r = openai_fn w (h ++ pre) messageInfo (content message))
    /\ (forall pre post e,
          ev = pre ++ ask :: post ->
          openai_fn w (h ++ pre) messageInfo (content message)
          = Failure (Failed e) ->
          _tag e <> "OpenAIError" ->
          post = []
          /\ r = Failure (Failed e)
          /\ classify fuel message w h
             = Some (ev ++ [Log LevelInfo (LogCause (Failed e))],
                     Success (fallbackInfo message))).
Proof.
  intros Hfuel ask.
  pose proof (retry_unrolled fuel w messageInfo (content message) h Hfuel)
    as Hrun.
  pose proof (classify_run fuel message w h Hfuel) as Hclass.
  pose proof (retried_attempts w messageInfo (content message) h) as Hcount.
  pose proof (retried_sleep w messageInfo (content message) h) as Hsleep.
  pose proof (retried_other_kind w messageInfo (content message) h) as Hother.
  pose proof (retried_last w messageInfo (content message) h) as Hlast.
  assert (Htwice : forall e1 e2,
    openai_fn w h messageInfo (content message) = Failure (Failed e1) ->
    _tag e1 = "OpenAIError" ->
    openai_fn w (h ++ [ask; Sleep 500]) messageInfo (content message)
    = Failure (Failed e2) ->
    _tag e2 = "OpenAIError" ->
    retried w messageInfo (content message) h
    = ([ask; Sleep 500; ask]
       ++ sleepFor (secondWait (clock w (h ++ [ask]))
                      (clock w (h ++ [ask; Sleep 500; ask])))
       ++ [ask],
       openai_fn w
         (h ++ [ask; Sleep 500; ask]
            ++ sleepFor (secondWait (clock w (h ++ [ask]))
                           (clock w (h ++ [ask; Sleep 500; ask]))))
         messageInfo (content message))).
  { intros e1 e2 H1 T1 H2 T2. unfold retried. fold ask. cbv zeta.
    rewrite H1, T1. cbn match. rewrite H2, T2. reflexivity. }
  destruct (retried w messageInfo (content message) h) as [ev r].
  cbn [fst snd] in *.
  exists ev, r. split; [exact Hrun|].
  split; [exact (proj1 Hcount)|]. split; [exact (proj2 Hcount)|].
  split; [intros pre post d Hsplit; exact (Hsleep pre post d Hsplit)|].
  split; [exact secondWait_grid|].
  split; [|split].
  - intros e1 e2 H1 T1 H2 T2.
    pose proof (Htwice e1 e2 H1 T1 H2 T2) as Heq.
    injection Heq as Hev Hr. now split.
  - intros pre post Hsplit Hnt. exact (Hlast pre post Hsplit Hnt).
  - intros pre post e Hsplit Hans Htag.
    destruct (Hother pre post e Hsplit Hans Htag) as [Hpost Hr].
    subst r. now repeat split.
Qed.

Lemma classifier_retry_bounded_witness :
  3 <= 3
  /\ exists ev r,
       retry 3 retryPolicy (fun err => String.eqb (_tag err) "OpenAIError")
         (openai_call messageInfo (content Samples.question))
         (Samples.world Samples.down) [] = Some (ev, r)
       /\ 1 <= count isAttempt ev <= 3.
Proof.
  split; [lia|].
  destruct (classifier_retry_bounded 3 (Samples.world Samples.down) []
              Samples.question (le_n 3))
    as [ev [r [Hrun [Hcount _]]]].
  exists ev, r. split; [exact Hrun | exact Hcount].
Defined.

(** C3 as the specification words it, with every retry 500 ms after the
    failure before it, fails: when the classifier takes 300 ms to fail,
    the second retry comes 200 ms after the second failure, and when it
    takes 700 ms the second retry comes at once. The bounded loop of the
    specification waits 500 ms both times, so the run is not the
    loop's. *)
Lemma retries_are_not_500_ms_apart :
  let ask := OpenAIFn messageInfo (content Samples.question) in
  retry 3 retryPolicy (fun err => String.eqb (_tag err) "OpenAIError")
    (openai_call messageInfo (content Samples.question))
    (Samples.slow 300) []
  = Some ([ask; Sleep 500; ask; Sleep 200; ask], Samples.down)
  /\ retry 3 retryPolicy (fun err => String.eqb (_tag err) "OpenAIError")
       (openai_call messageInfo (content Samples.question))
       (Samples.slow 700) []
     = Some ([ask; Sleep 500; ask; ask], Samples.down)
  /\ Spec.attempts 2 (Samples.slow 300) messageInfo
       (content Samples.question) []
     = ([ask; Sleep 500; ask; Sleep 500; ask], Samples.down)
  /\ retry 3 retryPolicy (fun err => String.eqb (_tag err) "OpenAIError")
       (openai_call messageInfo (content Samples.question))
       (Samples.slow 300) []
     <> Some (Spec.attempts 2 (Samples.slow 300) messageInfo
                (content Samples.question) []).
Proof.
  split; [reflexivity|]. split; [reflexivity|]. split; [reflexivity|].
  intros H. vm_compute in H. discriminate H.
Qed.

(** *** The message pipeline *)

Lemma app_cons_assoc (h : Trace) (e : Event) (ev : Trace) :
  (h ++ [e]) ++ ev = h ++ e :: ev.
Proof. now rewrite <- List.app_assoc. Qed.

(** The steps after the classification, answer by answer. *)
Lemma threadSteps_run (channel : string) (message : Message)
    (info : MessageInfo) (w : World) (h : Trace) :
  let start := threadRequest channel message info in
  threadSteps channel message info w h
  = Some
      match rest_startThreadFromMessage w h channel (message_id message)
              {| thread_name := truncate (short_title info) 100;
                 auto_archive_duration := 1440 |} with
      | Failure c => ([start], Failure c)
      | Success thread =>
          let post :=
            CreateMessage (thread_id thread)
              (controls (user_id (author message))) in
          match rest_createMessage w (h ++ [start]) (thread_id thread)
                  (controls (user_id (author message))) with
          | Failure c => ([start; post], Failure c)
          | Success _ =>
              if missingCodeFences info then
                ([start; post; CreateMessage (thread_id thread) hint],
                 match rest_createMessage w (h ++ [start; post])
                         (thread_id thread) hint with
                 | Success _ => Success thread
                 | Failure c => Failure c
                 end)
              else ([start; post], Success thread)
          end
      end.
Proof.
  unfold threadSteps, threadRequest, startThreadFromMessage, createMessage.
  run_effect.
  destruct (rest_startThreadFromMessage w h channel _ _) as [thread|c];
    [|reflexivity].
  run_effect.
  destruct (rest_createMessage w (h ++ _) (thread_id thread) (controls _))
    as [[]|c]; [|reflexivity].
  destruct (missingCodeFences info); run_effect; [|reflexivity].
  rewrite app_cons_assoc.
  destruct (rest_createMessage w _ (thread_id thread) hint) as [[]|c];
    reflexivity.
Qed.

Lemma messageIssue_none (m : Message) :
  messageIssue m = None <-> eligibleMessage m.
Proof.
  unfold messageIssue, eligibleMessage.
  destruct (Z.eqb_spec (message_type m) MessageType_DEFAULT) as [E|E].
  - destruct (bot (author m)) as [[|]|]; split; intros H;
      try discriminate; try (split; congruence).
    destruct H as [_ H]. now elim H.
  - split; [discriminate|]. intros [H _]. contradiction.
Qed.

Lemma channelIssue_none (topicKeyword : string) (c : Channel) :
  channelIssue topicKeyword c = None <-> eligibleChannel topicKeyword c.
Proof.
  unfold channelIssue, eligibleChannel.
  destruct (Z.eqb_spec (channel_type c) ChannelType_GUILD_TEXT) as [E|E].
  - destruct (topic c) as [t|].
    + destruct (Js.includes t topicKeyword) eqn:I.
      * split; [|reflexivity]. intros _. split; [exact E|]. now exists t.
      * split; [discriminate|]. intros [_ [t' [Ht Hi]]].
        injection Ht as Ht. subst t'. congruence.
    + split; [discriminate|]. intros [_ [t' [Ht _]]]. discriminate.
  - split; [discriminate|]. intros [H _]. contradiction.
Qed.

(** One run of the pipeline, step by step. *)
Lemma pipeline_run (topicKeyword : string) (fuel : nat) (m : Message)
    (w : World) (h : Trace) :
  pipeline topicKeyword fuel m w h
  = match messageIssue m with
    | Some path => Some ([], Failure (Failed (ParseError path)))
    | None =>
        match channels_get w h (message_guild_id m)
                (Some (message_channel_id m)) with
        | Failure c => Some ([channelLookup m], Failure c)
        | Success ch =>
            match channelIssue topicKeyword ch with
            | Some path =>
                Some ([channelLookup m], Failure (Failed (ParseError path)))
            | None =>
                match classify fuel m w (h ++ [channelLookup m]) with
                | None => None
                | Some (evc, Failure c) =>
                    Some (channelLookup m :: evc, Failure c)
                | Some (evc, Success info) =>
                    match threadSteps (channel_id ch) m info w
                            (h ++ channelLookup m :: evc) with
                    | None => None
                    | Some (evt, Success _) =>
                        Some (channelLookup m :: evc ++ evt, Success tt)
                    | Some (evt, Failure c) =>
                        Some (channelLookup m :: evc ++ evt, Failure c)
                    end
                end
            end
        end
    end.
Proof.
  change (pipeline topicKeyword fuel m)
    with (Effect.as_
            (_ <- EligibleMessage m ;;
             channel <- (u <- channels_call (message_guild_id m)
                                   (Some (message_channel_id m)) ;;
                         EligibleChannel topicKeyword u) ;;
             info <- classify fuel m ;;
             threadSteps (eligible_channel_id channel) m info)
            tt).
  unfold messageIssue, EligibleMessage, channelLookup, channels_call.
  destruct (Z.eqb (message_type m) MessageType_DEFAULT); [|reflexivity].
  destruct (bot (author m)) as [[|]|]; try reflexivity.
  all: run_effect; rewrite List.app_nil_r.
  all: destruct (channels_get w h _ _) as [ch|c]; [|reflexivity].
  all: unfold channelIssue, EligibleChannel.
  all: destruct (Z.eqb (channel_type ch) ChannelType_GUILD_TEXT);
    [|reflexivity].
  all: destruct (topic ch) as [t|]; [|reflexivity].
  all: destruct (Js.includes t topicKeyword); [|reflexivity].
  all: run_effect; rewrite List.app_nil_r.
  all: destruct (classify fuel m w _) as [[evc [info|c]]|]; try reflexivity.
  all: rewrite app_cons_assoc; simpl eligible_channel_id.
  all: destruct (threadSteps (channel_id ch) m info w _) as [[evt [th|c]]|];
    simpl; rewrite ?List.app_nil_r; reflexivity.
Qed.

(** The two catches of the handler: whatever the pipeline ends with, the
    handler succeeds, after logging the cause of a failure. *)
Lemma handleMessage_run (topicKeyword : string) (fuel : nat) (m : Message)
    (w : World) (h : Trace) :
  handleMessage topicKeyword fuel m w h
  = match pipeline topicKeyword fuel m w h with
    | None => None
    | Some (ev, Success _) => Some (ev, Success tt)
    | Some (ev, Failure c) => Some (ev ++ [topLevelLog w c], Success tt)
    end.
Proof.
  unfold handleMessage, Effect.catchAllCause, Effect.catchTag, topLevelLog.
  destruct (pipeline topicKeyword fuel m w h) as [[ev [[]|[e|d]]]|];
    try reflexivity.
  destruct (String.eqb (_tag e) "ParseError"); reflexivity.
Qed.

Lemma pipeline_total (topicKeyword : string) (fuel : nat) (m : Message)
    (w : World) (h : Trace) :
  3 <= fuel -> exists ev r, pipeline topicKeyword fuel m w h = Some (ev, r).
Proof.
  intros Hfuel. rewrite pipeline_run.
  destruct (messageIssue m); [eauto|].
  destruct (channels_get w h _ _) as [ch|c]; [|eauto].
  destruct (channelIssue topicKeyword ch); [eauto|].
  rewrite (classify_run fuel m w _ Hfuel).
  destruct (retried w messageInfo (content m) _) as [ev [info|[e|d]]];
    simpl; try rewrite threadSteps_run; simpl.
  - destruct (match rest_startThreadFromMessage w _ _ _ _ with
              | Success _ => _ | Failure _ => _ end) as [evt [th|c]]; eauto.
  - destruct (match rest_startThreadFromMessage w _ _ _ _ with
              | Success _ => _ | Failure _ => _ end) as [evt [th|c]]; eauto.
  - eauto.
Qed.

Lemma handleMessage_total (topicKeyword : string) (fuel : nat) (m : Message)
    (w : World) (h : Trace) :
  3 <= fuel ->
  exists ev, handleMessage topicKeyword fuel m w h = Some (ev, Success tt).
Proof.
  intros Hfuel. rewrite handleMessage_run.
  destruct (pipeline_total topicKeyword fuel m w h Hfuel) as [ev [[[]|c] ->]];
    eauto.
Qed.

(** [s.startsWith(p)] and [s.includes(sub)] say what their names say. *)
Lemma prefix_app (p s : string) :
  String.prefix p s = true <-> exists post, s = (p ++ post)%string.
Proof.
  revert s. induction p as [|c p IH]; intros s; destruct s as [|d s]; simpl.
  - split; [intros _; now exists "" | reflexivity].
  - split; [intros _; now exists (String d s) | reflexivity].
  - split; [discriminate | intros [post H]; discriminate].
  - destruct (Ascii.ascii_dec c d) as [->|N].
    + rewrite IH. split; intros [post H]; exists post.
      * now rewrite H.
      * now injection H.
    + split; [discriminate|]. intros [post H]. injection H as H1 H2.
      congruence.
Qed.

Lemma includes_unfold (s sub : string) :
  Js.includes s sub
  = if String.prefix sub s then true
    else match s with
         | EmptyString => false
         | String _ s' => Js.includes s' sub
         end.
Proof. destruct s; reflexivity. Qed.

Lemma includes_app (s sub : string) :
  Js.includes s sub = true
  <-> exists pre post, s = (pre ++ sub ++ post)%string.
Proof.
  induction s as [|c s IH]; rewrite includes_unfold;
    destruct (String.prefix sub _) eqn:P.
  - apply prefix_app in P. destruct P as [post P].
    split; [intros _; now exists "", post | reflexivity].
  - split; [discriminate|]. intros [pre [post H]].
    assert (String.prefix sub "" = true) as C; [|congruence].
    apply prefix_app. destruct pre; [|discriminate]. now exists post.
  - apply prefix_app in P. destruct P as [post P].
    split; [intros _; now exists "", post | reflexivity].
  - rewrite IH. split.
    + intros [pre [post H]]. exists (String c pre), post. simpl. now rewrite H.
    + intros [pre [post H]]. destruct pre as [|d pre].
      * assert (String.prefix sub (String c s) = true) as C; [|congruence].
        apply prefix_app. now exists post.
      * injection H as _ H. now exists pre, post.
Qed.

(** A run that asks for a thread has decoded the message and its
    channel. *)
Lemma thread_request_decoded (topicKeyword : string) (fuel : nat)
    (m : Message) (w : World) (h : Trace) (ev : Trace) (r : Exit unit) :
  handleMessage topicKeyword fuel m w h = Some (ev, r) ->
  List.existsb isThreadRequest ev = true ->
  messageIssue m = None
  /\ exists ch,
       channels_get w h (message_guild_id m) (Some (message_channel_id m))
       = Success ch
       /\ channelIssue topicKeyword ch = None.
Proof.
  rewrite handleMessage_run, pipeline_run.
  destruct (messageIssue m) as [path|].
  { intros H; injection H as <- _. discriminate. }
  destruct (channels_get w h _ _) as [ch|c].
  2:{ intros H; injection H as <- _. simpl. destruct (topLevelLog w c) eqn:L;
        try discriminate.
      unfold topLevelLog in L. destruct c as [e|d]; try discriminate L.
      destruct (String.eqb (_tag e) "ParseError"); discriminate L. }
  destruct (channelIssue topicKeyword ch) as [path|] eqn:Hc.
  { intros H; injection H as <- _. discriminate. }
  intros _ _. split; [reflexivity|]. now exists ch.
Qed.

(** C1. A thread is asked for only when the message has the DEFAULT
    type, its author is not a bot, and the channel found for it is a
    GUILD_TEXT channel whose topic contains the keyword; a message of a
    bot, a message of another type, and a channel of another type or
    whose topic lacks the keyword get no thread. The handler ends
    normally in every case. *)
Theorem thread_only_when_eligible
    (topicKeyword : string) (fuel : nat) (w : World) (h : Trace)
    (m : Message) :
  3 <= fuel ->
  exists ev,
    handleMessage topicKeyword fuel m w h = Some (ev, Success tt)
    /\ (List.existsb isThreadRequest ev = true ->
        message_type m = MessageType_DEFAULT
        /\ bot (author m) <> Some true
        /\ exists ch t pre post,
             channels_get w h (message_guild_id m)
               (Some (message_channel_id m)) = Success ch
             /\ channel_type ch = ChannelType_GUILD_TEXT
             /\ topic ch = Some t
             /\ t = (pre ++ topicKeyword ++ post)%string)
    /\ (bot (author m) = Some true ->
        List.existsb isThreadRequest ev = false)
    /\ (message_type m <> MessageType_DEFAULT ->
        List.existsb isThreadRequest ev = false)
    /\ (forall ch,
          channels_get w h (message_guild_id m)
            (Some (message_channel_id m)) = Success ch ->
          channel_type ch <> ChannelType_GUILD_TEXT
          \/ (forall t, topic ch = Some t ->
                        Js.includes t topicKeyword = false) ->
          List.existsb isThreadRequest ev = false).
Proof.
  intros Hfuel.
  destruct (handleMessage_total topicKeyword fuel m w h Hfuel) as [ev Hrun].
  exists ev. split; [exact Hrun|].
  pose proof (thread_request_decoded topicKeyword fuel m w h ev (Success tt)
                Hrun) as Hdec.
  split; [|split; [|split]].
  - intros H. apply Hdec in H. destruct H as [Hm [ch [Hch Hc]]].
    apply messageIssue_none in Hm. destruct Hm as [Hty Hbot].
    apply channelIssue_none in Hc. destruct Hc as [Hcty [t [Ht Hi]]].
    apply includes_app in Hi. destruct Hi as [pre [post Hi]].
    split; [exact Hty|]. split; [exact Hbot|].
    now exists ch, t, pre, post.
  - intros Hbot. destruct (List.existsb isThreadRequest ev); [|reflexivity].
    destruct (Hdec eq_refl) as [Hm _]. apply messageIssue_none in Hm.
    destruct Hm as [_ Hm]. contradiction.
  - intros Hty. destruct (List.existsb isThreadRequest ev); [|reflexivity].
    destruct (Hdec eq_refl) as [Hm _]. apply messageIssue_none in Hm.
    destruct Hm as [Hm _]. contradiction.
  - intros ch Hch Hbad.
    destruct (List.existsb isThreadRequest ev); [|reflexivity].
    destruct (Hdec eq_refl) as [_ [ch' [Hch' Hc]]].
    rewrite Hch in Hch'. injection Hch' as <-.
    apply channelIssue_none in Hc. destruct Hc as [Hty [t [Ht Hi]]].
    destruct Hbad as [Hbad|Hbad]; [contradiction|].
    rewrite (Hbad t Ht) in Hi. discriminate.
Qed.

Lemma thread_only_when_eligible_witness :
  3 <= 3
  /\ exists ev,
       handleMessage Samples.keyword 3 Samples.question
         (Samples.world (Success Samples.answer)) [] = Some (ev, Success tt)
       /\ (List.existsb isThreadRequest ev = true ->
           message_type Samples.question = MessageType_DEFAULT).
Proof.
  split; [lia|].
  destruct (thread_only_when_eligible Samples.keyword 3
              (Samples.world (Success Samples.answer)) []
              Samples.question (le_n 3))
    as [ev [Hrun [Honly _]]].
  exists ev. split; [exact Hrun|].
  intros H. exact (proj1 (Honly H)).
Defined.

Lemma topLevelLog_is_log (w : World) (c : Cause) :
  exists level message, topLevelLog w c = Log level message.
Proof.
  unfold topLevelLog. destruct c as [e|d]; [|eauto].
  destruct (String.eqb (_tag e) "ParseError"); eauto.
Qed.

Lemma retried_no_hint (w : World) (fn input : string) (h : Trace) :
  count isHint (fst (retried w fn input h)) = 0.
Proof. now apply retried_count. Qed.

(** C2. When the classifier call of an eligible message ends in a
    failure (its attempts used up, or a failure that is not retried),
    the classification is the fallback: the title is the display name
    (the member's nickname if there is one, else the author's username)
    followed by "'s thread", and both code flags are false. The thread
    is asked for all the same, under that title, and no hint is
    posted. *)
Theorem fallback_when_classifier_fails
    (topicKeyword : string) (fuel : nat) (w : World) (h : Trace)
    (m : Message) (ch : Channel) (evr : Trace) (e : Error) :
  3 <= fuel ->
  eligibleMessage m ->
  channels_get w h (message_guild_id m) (Some (message_channel_id m))
  = Success ch ->
  eligibleChannel topicKeyword ch ->
  retry fuel retryPolicy (fun err => String.eqb (_tag err) "OpenAIError")
    (openai_call messageInfo (content m)) w (h ++ [channelLookup m])
  = Some (evr, Failure (Failed e)) ->
  let displayName :=
    match member m with
    | Some mm => match nick mm with
                 | Some n => n
                 | None => username (author m)
                 end
    | None => username (author m)
    end in
  let info :=
    {| short_title := displayName ++ "'s thread";
       has_code_examples := false;
       has_code_fences := false |} in
  classify fuel m w (h ++ [channelLookup m])
  = Some (evr ++ [Log LevelInfo (LogCause (Failed e))], Success info)
  /\ exists ev rest,
       handleMessage topicKeyword fuel m w h = Some (ev, Success tt)
       /\ ev = channelLookup m
               :: evr
               ++ Log LevelInfo (LogCause (Failed e))
               :: StartThreadFromMessage (channel_id ch) (message_id m)
                    {| thread_name :=
                         truncate (displayName ++ "'s thread") 100;
                       auto_archive_duration := 1440 |}
               :: rest
       /\ count isHint ev = 0.
Proof.
  intros Hfuel Hm Hch Hc Hretry displayName info.
  assert (Hinfo : fallbackInfo m = info).
  { unfold fallbackInfo, info, displayName.
    destruct (member m) as [mm|]; [destruct (nick mm)|]; reflexivity. }
  assert (Hclass : classify fuel m w (h ++ [channelLookup m])
                   = Some (evr ++ [Log LevelInfo (LogCause (Failed e))],
                           Success info)).
  { unfold classify, Effect.orElseSucceed, Effect.tapErrorCause,
      Effect.catchAllCause.
    rewrite Hretry. run_effect. now rewrite Hinfo. }
  split; [exact Hclass|].
  assert (Hevr : count isHint evr = 0).
  { rewrite (retry_unrolled fuel w messageInfo (content m) _ Hfuel) in Hretry.
    pose proof (retried_no_hint w messageInfo (content m)
                  (h ++ [channelLookup m])) as Hno.
    destruct (retried w messageInfo (content m) _) as [ev' r'].
    injection Hretry as -> _. exact Hno. }
  rewrite handleMessage_run, pipeline_run.
  apply messageIssue_none in Hm. apply channelIssue_none in Hc.
  rewrite Hm, Hch, Hc, Hclass, threadSteps_run.
  change (missingCodeFences info) with false. cbv zeta.
  change (threadRequest (channel_id ch) m info)
    with (StartThreadFromMessage (channel_id ch) (message_id m)
            {| thread_name := truncate (displayName ++ "'s thread") 100;
               auto_archive_duration := 1440 |}).
  change (truncate (short_title info) 100)
    with (truncate (displayName ++ "'s thread") 100).
  destruct (rest_startThreadFromMessage w _ _ _ _) as [thread|c].
  - destruct (rest_createMessage w _ _ _) as [[]|c].
    + eexists.
      exists [CreateMessage (thread_id thread) (controls (user_id (author m)))].
      split; [reflexivity|]. split.
      * cbn [List.app]. repeat rewrite <- List.app_assoc. reflexivity.
      * count_events. rewrite Hevr. reflexivity.
    + destruct (topLevelLog_is_log w c) as [level [message Hlog]].
      eexists.
      exists [CreateMessage (thread_id thread) (controls (user_id (author m)));
              topLevelLog w c].
      split; [reflexivity|]. split.
      * cbn [List.app]. repeat rewrite <- List.app_assoc. reflexivity.
      * count_events. rewrite Hevr, Hlog. reflexivity.
  - destruct (topLevelLog_is_log w c) as [level [message Hlog]].
    eexists. exists [topLevelLog w c].
    split; [reflexivity|]. split.
    + cbn [List.app]. repeat rewrite <- List.app_assoc. reflexivity.
    + count_events. rewrite Hevr, Hlog. reflexivity.
Qed.

Lemma fallback_when_classifier_fails_witness :
  exists rest,
    handleMessage Samples.keyword 3 Samples.question
      (Samples.world Samples.down) []
    = Some (channelLookup Samples.question
            :: [OpenAIFn messageInfo "How do I decode this?"; Sleep 500;
                OpenAIFn messageInfo "How do I decode this?"; Sleep 500;
                OpenAIFn messageInfo "How do I decode this?"]
            ++ Log LevelInfo (LogCause (Failed (OpenAIError "503")))
            :: StartThreadFromMessage "c1" "m1"
                 {| thread_name := "Al's thread";
                    auto_archive_duration := 1440 |}
            :: rest,
            Success tt).
Proof.
  assert (Hm : eligibleMessage Samples.question)
    by (split; [reflexivity | discriminate]).
  assert (Hc : eligibleChannel Samples.keyword Samples.help)
    by (split; [reflexivity | exists "Ask here [threads]"; split; reflexivity]).
  destruct (@fallback_when_classifier_fails Samples.keyword 3
              (Samples.world Samples.down) [] Samples.question Samples.help
              [OpenAIFn messageInfo "How do I decode this?"; Sleep 500;
               OpenAIFn messageInfo "How do I decode this?"; Sleep 500;
               OpenAIFn messageInfo "How do I decode this?"]
              (OpenAIError "503")
              (le_n 3) Hm eq_refl Hc eq_refl)
    as [_ [ev [rest [Hrun [Hev _]]]]].
  exists rest. rewrite Hrun, Hev. reflexivity.
Defined.

(** An eligible message that has been classified goes through the steps
    of the thread. *)
Lemma handleMessage_eligible (topicKeyword : string) (fuel : nat)
    (m : Message) (w : World) (h : Trace) (ch : Channel) (evc : Trace)
    (info : MessageInfo) :
  eligibleMessage m ->
  channels_get w h (message_guild_id m) (Some (message_channel_id m))
  = Success ch ->
  eligibleChannel topicKeyword ch ->
  classify fuel m w (h ++ [channelLookup m]) = Some (evc, Success info) ->
  handleMessage topicKeyword fuel m w h
  = match threadSteps (channel_id ch) m info w
            (h ++ channelLookup m :: evc) with
    | None => None
    | Some (evt, Success _) =>
        Some (channelLookup m :: evc ++ evt, Success tt)
    | Some (evt, Failure c) =>
        Some (channelLookup m :: evc ++ evt ++ [topLevelLog w c], Success tt)
    end.
Proof.
  intros Hm Hch Hc Hclass.
  apply messageIssue_none in Hm. apply channelIssue_none in Hc.
  rewrite handleMessage_run, pipeline_run, Hm, Hch, Hc, Hclass.
  destruct (threadSteps _ _ _ _ _) as [[evt [th|c]]|]; try reflexivity.
  cbn [List.app]. now rewrite <- List.app_assoc.
Qed.

(** *** The title of the thread *)

Lemma substring_length (n : nat) (s : string) :
  String.length (String.substring 0 n s) = Nat.min n (String.length s).
Proof.
  revert n. induction s as [|c s IH]; intros [|n]; simpl; try reflexivity.
  now rewrite IH.
Qed.

Lemma substring_short (n : nat) (s : string) :
  String.length s <= n -> String.substring 0 n s = s.
Proof.
  revert n. induction s as [|c s IH]; intros [|n]; simpl; intros H;
    try reflexivity; try lia.
  rewrite IH; [reflexivity | lia].
Qed.

Lemma substring_prefix (n : nat) (s : string) :
  exists tail, s = (String.substring 0 n s ++ tail)%string.
Proof.
  revert n. induction s as [|c s IH]; intros [|n]; simpl.
  - now exists "".
  - now exists "".
  - now exists (String c s).
  - destruct (IH n) as [tail H]. exists tail. now rewrite <- H.
Qed.

(** C4. The thread of an eligible message is asked for under the
    classification's title cut to its first 100 characters: a title of
    at most 100 characters is kept as it is, a longer one (150
    characters, say) gives exactly its first 100 characters. The
    auto-archive duration is 1440 minutes. *)
Theorem thread_name_truncated
    (topicKeyword : string) (fuel : nat) (w : World) (h : Trace)
    (m : Message) (ch : Channel) (evc : Trace) (info : MessageInfo) :
  eligibleMessage m ->
  channels_get w h (message_guild_id m) (Some (message_channel_id m))
  = Success ch ->
  eligibleChannel topicKeyword ch ->
  classify fuel m w (h ++ [channelLookup m]) = Some (evc, Success info) ->
  exists name rest,
    handleMessage topicKeyword fuel m w h
    = Some (channelLookup m
            :: evc
            ++ StartThreadFromMessage (channel_id ch) (message_id m)
                 {| thread_name := name; auto_archive_duration := 1440 |}
            :: rest,
            Success tt)
    /\ name = truncate (short_title info) 100
    /\ String.length name <= 100
    /\ (exists tail, short_title info = (name ++ tail)%string)
    /\ (String.length (short_title info) <= 100 -> name = short_title info)
    /\ (100 <= String.length (short_title info) -> String.length name = 100).
Proof.
  intros Hm Hch Hc Hclass.
  exists (truncate (short_title info) 100).
  rewrite (@handleMessage_eligible topicKeyword fuel m w h ch evc info
             Hm Hch Hc Hclass), threadSteps_run.
  cbv zeta. unfold threadRequest.
  assert (Hname :
    truncate (short_title info) 100 = truncate (short_title info) 100
    /\ String.length (truncate (short_title info) 100) <= 100
    /\ (exists tail,
          short_title info = (truncate (short_title info) 100 ++ tail)%string)
    /\ (String.length (short_title info) <= 100 ->
        truncate (short_title info) 100 = short_title info)
    /\ (100 <= String.length (short_title info) ->
        String.length (truncate (short_title info) 100) = 100)).
  { unfold truncate. rewrite substring_length.
    split; [reflexivity|]. split; [lia|].
    split; [apply substring_prefix|].
    split; [apply substring_short | lia]. }
  destruct (rest_startThreadFromMessage w _ _ _ _) as [thread|c].
  - destruct (rest_createMessage w _ _ _) as [[]|c].
    + destruct (missingCodeFences info).
      * destruct (rest_createMessage w _ _ _) as [[]|c];
          eexists; (split; [reflexivity | exact Hname]).
      * eexists; (split; [reflexivity | exact Hname]).
    + eexists; (split; [reflexivity | exact Hname]).
  - eexists; (split; [reflexivity | exact Hname]).
Qed.

Lemma thread_name_truncated_witness :
  exists name,
    name = Samples.times 10 "0123456789"
    /\ exists rest,
         handleMessage Samples.keyword 3 Samples.question
           (Samples.world (Success Samples.longAnswer)) []
         = Some (channelLookup Samples.question
                 :: [OpenAIFn messageInfo "How do I decode this?"]
                 ++ StartThreadFromMessage "c1" "m1"
                      {| thread_name := name; auto_archive_duration := 1440 |}
                 :: rest,
                 Success tt).
Proof.
  assert (Hm : eligibleMessage Samples.question)
    by (split; [reflexivity | discriminate]).
  assert (Hc : eligibleChannel Samples.keyword Samples.help)
    by (split; [reflexivity | exists "Ask here [threads]"; split; reflexivity]).
  destruct (@thread_name_truncated Samples.keyword 3
              (Samples.world (Success Samples.longAnswer)) []
              Samples.question Samples.help
              [OpenAIFn messageInfo "How do I decode this?"]
              Samples.longAnswer Hm eq_refl Hc eq_refl)
    as [name [rest [Hrun [Hname _]]]].
  exists name. split; [exact Hname|]. exists rest. exact Hrun.
Defined.

(** *** The hint *)

Lemma isHint_hint (channel : string) :
  isHint (CreateMessage channel hint) = true.
Proof. unfold isHint, hint. simpl msg_content. apply String.eqb_refl. Qed.

Lemma classify_no_hint (fuel : nat) (m : Message) (w : World) (h : Trace)
    (evc : Trace) (r : Exit MessageInfo) :
  3 <= fuel ->
  classify fuel m w h = Some (evc, r) ->
  count isHint evc = 0 /\ count isThreadRequest evc = 0.
Proof.
  intros Hfuel. rewrite (classify_run fuel m w h Hfuel).
  pose proof (retried_count isHint w messageInfo (content m) h eq_refl
                (fun _ => eq_refl)) as Hh.
  pose proof (retried_count isThreadRequest w messageInfo (content m) h
                eq_refl (fun _ => eq_refl)) as Ht.
  destruct (retried w messageInfo (content m) h) as [ev r'].
  cbv zeta. cbn [fst snd] in *.
  destruct r' as [info|[e|d]]; intros H; injection H as <- _;
    rewrite ?count_app, ?Hh, ?Ht; unfold count; simpl; lia.
Qed.

(** C5. For an eligible message whose thread and control message went
    through, the hint is posted once, right after the control message,
    exactly when the classification has code examples and no code
    fences; with any other pair of flags the run has no hint. Whatever
    the platform answers, a run posts at most one hint, and none unless
    the classification has code examples and no code fences. *)
Theorem hint_when_fences_missing
    (topicKeyword : string) (fuel : nat) (w : World) (h : Trace)
    (m : Message) (ch : Channel) (evc : Trace) (info : MessageInfo) :
  3 <= fuel ->
  eligibleMessage m ->
  channels_get w h (message_guild_id m) (Some (message_channel_id m))
  = Success ch ->
  eligibleChannel topicKeyword ch ->
  classify fuel m w (h ++ [channelLookup m]) = Some (evc, Success info) ->
  let start := threadRequest (channel_id ch) m info in
  let wanted := has_code_examples info && negb (has_code_fences info) in
  (forall thread,
     rest_startThreadFromMessage w (h ++ channelLookup m :: evc)
       (channel_id ch) (message_id m)
       {| thread_name := truncate (short_title info) 100;
          auto_archive_duration := 1440 |} = Success thread ->
     rest_createMessage w ((h ++ channelLookup m :: evc) ++ [start])
       (thread_id thread) (controls (user_id (author m))) = Success tt ->
     exists tail,
       handleMessage topicKeyword fuel m w h
       = Some (channelLookup m
               :: evc
               ++ start
               :: CreateMessage (thread_id thread)
                    (controls (user_id (author m)))
               :: (if wanted
                   then CreateMessage (thread_id thread) hint :: tail
                   else tail),
               Success tt)
       /\ count isHint tail = 0
       /\ count isHint
            (channelLookup m
             :: evc
             ++ start
             :: CreateMessage (thread_id thread)
                  (controls (user_id (author m)))
             :: (if wanted
                 then CreateMessage (thread_id thread) hint :: tail
                 else tail))
          = (if wanted then 1 else 0))
  /\ exists ev,
       handleMessage topicKeyword fuel m w h = Some (ev, Success tt)
       /\ count isHint ev <= (if wanted then 1 else 0).
Proof.
  intros Hfuel Hm Hch Hc Hclass start wanted.
  destruct (classify_no_hint fuel m w _ evc (Success info) Hfuel Hclass)
    as [Hevc _].
  rewrite (@handleMessage_eligible topicKeyword fuel m w h ch evc info
             Hm Hch Hc Hclass), threadSteps_run.
  cbv zeta. fold start. change (missingCodeFences info) with wanted.
  split.
  - intros thread Hstart Hpost. rewrite Hstart, Hpost.
    destruct wanted.
    + destruct (rest_createMessage w _ _ hint) as [[]|c].
      * exists []. split; [reflexivity|]. split; [reflexivity|].
        rewrite count_cons, count_app, Hevc, !count_cons, isHint_hint.
        reflexivity.
      * destruct (topLevelLog_is_log w c) as [level [message Hlog]].
        exists [topLevelLog w c]. split; [reflexivity|].
        rewrite Hlog. split; [reflexivity|].
        rewrite count_cons, count_app, Hevc, !count_cons, isHint_hint.
        reflexivity.
    + exists []. split; [reflexivity|]. split; [reflexivity|].
      rewrite count_cons, count_app, Hevc, !count_cons. reflexivity.
  - destruct (rest_startThreadFromMessage w _ _ _ _) as [thread|c].
    + destruct (rest_createMessage w _ _ (controls _)) as [[]|c].
      * destruct wanted.
        -- destruct (rest_createMessage w _ _ hint) as [[]|c].
           ++ eexists. split; [reflexivity|].
              count_events. rewrite Hevc, ?isHint_hint.
              unfold count. simpl. lia.
           ++ destruct (topLevelLog_is_log w c) as [level [message Hlog]].
              eexists. split; [reflexivity|]. rewrite Hlog.
              count_events. rewrite Hevc, ?isHint_hint.
              unfold count. simpl. lia.
        -- eexists. split; [reflexivity|].
           count_events. rewrite Hevc. unfold count. simpl. lia.
      * destruct (topLevelLog_is_log w c) as [level [message Hlog]].
        eexists. split; [reflexivity|]. rewrite Hlog.
        count_events. rewrite Hevc.
        unfold count. destruct wanted; simpl; lia.
    + destruct (topLevelLog_is_log w c) as [level [message Hlog]].
      eexists. split; [reflexivity|]. rewrite Hlog.
      count_events. rewrite Hevc.
      unfold count. destruct wanted; simpl; lia.
Qed.

Lemma hint_when_fences_missing_witness :
  exists tail,
    handleMessage Samples.keyword 3 Samples.question
      (Samples.world (Success Samples.answer)) []
    = Some (channelLookup Samples.question
            :: OpenAIFn messageInfo "How do I decode this?"
            :: threadRequest "c1" Samples.question Samples.answer
            :: CreateMessage "t1" (controls "1001")
            :: CreateMessage "t1" hint
            :: tail,
            Success tt)
    /\ count isHint tail = 0.
Proof.
  assert (Hm : eligibleMessage Samples.question)
    by (split; [reflexivity | discriminate]).
  assert (Hc : eligibleChannel Samples.keyword Samples.help)
    by (split; [reflexivity | exists "Ask here [threads]"; split; reflexivity]).
  destruct (@hint_when_fences_missing Samples.keyword 3
              (Samples.world (Success Samples.answer)) []
              Samples.question Samples.help
              [OpenAIFn messageInfo "How do I decode this?"]
              Samples.answer (le_n 3) Hm eq_refl Hc eq_refl)
    as [Hposted _].
  destruct (Hposted {| thread_id := "t1" |} eq_refl eq_refl)
    as [tail [Hrun [Htail _]]].
  exists tail. split; [exact Hrun | exact Htail].
Defined.

(** *** Isolation of the events *)

(** The run in which the handlers follow one another, event by event. *)
Lemma handleMessages_cons (topicKeyword : string) (fuel : nat) (m : Message)
    (rest : list Message) (w : World) (h : Trace) (ev : Trace) :
  handleMessage topicKeyword fuel m w h = Some (ev, Success tt) ->
  handleMessages topicKeyword fuel (m :: rest) w h
  = match handleMessages topicKeyword fuel rest w (h ++ ev) with
    | None => None
    | Some (ev', r) => Some (ev ++ ev', r)
    end.
Proof.
  intros H. unfold handleMessages. simpl. unfold Effect.flatMap at 1.
  now rewrite H.
Qed.

(** C8. Whatever cause the pipeline of a message ends with, the handler
    of the message logs it and ends normally: no failure leaves the
    handler of its event. A cause other than a [ParseError] (a failure
    of the classification, of the thread request or of a post) is logged
    as an error, with the cause. This holds in every world and after
    every history, so whatever the handlers of other events have done,
    and whatever this handler has met does not reach them. *)
Theorem failures_stay_in_their_event
    (topicKeyword : string) (fuel : nat) (w : World) (h : Trace)
    (m : Message) :
  3 <= fuel ->
  exists ev,
    handleMessage topicKeyword fuel m w h = Some (ev, Success tt)
    /\ (forall evp c,
          pipeline topicKeyword fuel m w h = Some (evp, Failure c) ->
          ev = evp ++ [topLevelLog w c]
          /\ (exists level message, topLevelLog w c = Log level message)
          /\ ((forall e, c = Failed e -> _tag e <> "ParseError") ->
              topLevelLog w c = Log LevelError (LogCause c)))
    /\ (forall evp,
          pipeline topicKeyword fuel m w h = Some (evp, Success tt) ->
          ev = evp).
Proof.
  intros Hfuel.
  destruct (handleMessage_total topicKeyword fuel m w h Hfuel) as [ev Hrun].
  exists ev. split; [exact Hrun|]. split.
  - intros evp c Hp. rewrite handleMessage_run, Hp in Hrun.
    injection Hrun as <-. split; [reflexivity|].
    split; [apply topLevelLog_is_log|].
    intros Hother. unfold topLevelLog. destruct c as [e|d]; [|reflexivity].
    destruct (String.eqb_spec (_tag e) "ParseError") as [T|T];
      [|reflexivity].
    now elim (Hother e eq_refl).
  - intros evp Hp. rewrite handleMessage_run, Hp in Hrun.
    now injection Hrun as <-.
Qed.

Lemma failures_stay_in_their_event_witness :
  3 <= 3
  /\ pipeline Samples.keyword 3 Samples.question Samples.refusing []
     = Some ([channelLookup Samples.question;
              OpenAIFn messageInfo "How do I decode this?";
              threadRequest "c1" Samples.question Samples.answer;
              CreateMessage "t1" (controls "1001")],
             Failure (Failed (DiscordRESTError "403")))
  /\ handleMessage Samples.keyword 3 Samples.question Samples.refusing []
     = Some ([channelLookup Samples.question;
              OpenAIFn messageInfo "How do I decode this?";
              threadRequest "c1" Samples.question Samples.answer;
              CreateMessage "t1" (controls "1001");
              Log LevelError (LogCause (Failed (DiscordRESTError "403")))],
             Success tt).
Proof.
  split; [lia|]. split; [reflexivity|].
  destruct (failures_stay_in_their_event Samples.keyword 3 Samples.refusing
              [] Samples.question (le_n 3)) as [ev [Hrun [Hlog _]]].
  destruct (Hlog [channelLookup Samples.question;
                  OpenAIFn messageInfo "How do I decode this?";
                  threadRequest "c1" Samples.question Samples.answer;
                  CreateMessage "t1" (controls "1001")]
              (Failed (DiscordRESTError "403")) eq_refl)
    as [Hev [_ Herr]].
  rewrite Hrun, Hev, Herr; [reflexivity|].
  intros e He. injection He as <-. discriminate.
Defined.

(** *** Interactions *)

Lemma split_plain (s : string) :
  noUnderscore s = true -> Js.split "_" s = [s].
Proof.
  induction s as [|c s IH]; simpl; [reflexivity|].
  destruct (Ascii.eqb c "_"); simpl; [discriminate|].
  intros H. now rewrite (IH H).
Qed.

Lemma split_first (s rest : string) :
  noUnderscore s = true ->
  Js.split "_" (s ++ String "_" rest) = s :: Js.split "_" rest.
Proof.
  induction s as [|c s IH]; simpl; [reflexivity|].
  destruct (Ascii.eqb c "_"); simpl; [discriminate|].
  intros H. now rewrite (IH H).
Qed.

(** The second segment of a custom id: the text between its first
    underscore and the next one, or the end. *)
Lemma split_second (prefix authorId tail : string) :
  noUnderscore prefix = true ->
  noUnderscore authorId = true ->
  tail = "" \/ (exists t, tail = String "_" t) ->
  nth_error (Js.split "_" (prefix ++ "_" ++ authorId ++ tail)) 1
  = Some authorId.
Proof.
  intros Hp Ha Ht.
  change (prefix ++ "_" ++ authorId ++ tail)%string
    with (prefix ++ String "_" (authorId ++ tail))%string.
  rewrite (split_first _ _ Hp). simpl.
  destruct Ht as [->|[t ->]].
  - replace (authorId ++ "")%string with authorId.
    + now rewrite (split_plain _ Ha).
    + clear. induction authorId as [|c s IH]; simpl; congruence.
  - now rewrite (split_first _ _ Ha).
Qed.

Lemma hasManage_bit (p : Z) : hasManage p = true <-> Z.testbit p 4 = true.
Proof.
  unfold hasManage, Perms_has, PermissionFlag_MANAGE_CHANNELS.
  change (Z.shiftl 1 4) with (2 ^ 4)%Z.
  rewrite Z.eqb_eq. split; intros H.
  - apply (f_equal (fun x => Z.testbit x 4)) in H.
    rewrite Z.land_spec in H. cbn in H.
    now rewrite Bool.andb_true_r in H.
  - apply Z.bits_inj'. intros n Hn.
    rewrite Z.land_spec, (Z.pow2_bits_eqb 4 n) by lia.
    destruct (Z.eqb_spec 4 n) as [<-|N].
    + now rewrite H.
    + apply Bool.andb_false_r.
Qed.

Lemma strict_eq_true (a b : option string) :
  Js.strict_eq a b = true <-> a = b.
Proof.
  destruct a as [x|], b as [y|]; simpl; try (split; congruence).
  rewrite String.eqb_eq. split; congruence.
Qed.

(** The test of [withEditPermissions], for a custom id whose second
    segment is [authorId]. *)
Lemma canEdit_true (i : Interaction) (custom_id authorId : string) :
  nth_error (Js.split "_" custom_id) 1 = Some authorId ->
  canEdit i custom_id = Success true
  <-> invokingUserId i = Some authorId \/ holdsManageChannels i.
Proof.
  intros Hid. unfold canEdit. rewrite Hid.
  fold (invokingUserId i).
  destruct (Js.strict_eq (Some authorId) (invokingUserId i)) eqn:E.
  - apply strict_eq_true in E. split; [now left | reflexivity].
  - assert (N : invokingUserId i <> Some authorId).
    { intros C. rewrite C in E. simpl in E.
      now rewrite String.eqb_refl in E. }
    unfold holdsManageChannels.
    destruct (ix_member i) as [m|] eqn:Em.
    + destruct (permissions m) as [p|] eqn:Ep.
      * split.
        -- intros H. injection H as H. right. exists m, p.
           split; [reflexivity|]. split; [exact Ep|].
           now apply hasManage_bit.
        -- intros [H|[m' [p' [Hm [Hp Hb]]]]]; [contradiction|].
           injection Hm as <-. rewrite Ep in Hp. injection Hp as <-.
           apply hasManage_bit in Hb. now rewrite Hb.
      * split; [discriminate|].
        intros [H|[m' [p' [Hm [Hp _]]]]]; [contradiction|].
        injection Hm as <-. rewrite Ep in Hp. discriminate.
    + split; [discriminate|].
      intros [H|[m' [p' [Hm _]]]]; [contradiction | discriminate].
Qed.

(** What [withEditPermissions] does with the outcome of its test. *)
Lemma withEditPermissions_run (A : Type) (self : Interaction -> Effect.t A)
    (i : Interaction) (custom_id : string) (w : World) (h : Trace) :
  ix_data i = MessageComponent custom_id ->
  withEditPermissions self i w h
  = match canEdit i custom_id with
    | Success true => self i w h
    | Success false =>
        Some ([], Failure (Failed (PermissionsError "edit" "thread")))
    | Failure c => Some ([], Failure c)
    end.
Proof.
  intros Hdata. unfold withEditPermissions, MessageComponentData.
  rewrite Hdata. run_effect.
  destruct (canEdit i custom_id) as [[|]|c]; run_effect; cbn [negb];
    run_effect; try reflexivity.
  rewrite !List.app_nil_r.
  destruct (self i w h) as [[ev r]|]; reflexivity.
Qed.

(** The check on any custom id made of a prefix, an underscore and an
    author id (the text up to the next underscore or the end of the
    id): the guarded effect is run exactly when the invoking user's id
    is that author id or the member's permissions contain the
    MANAGE_CHANNELS bit. *)
Lemma author_or_manager_is_permitted
    (i : Interaction) (prefix authorId tail : string) :
  noUnderscore prefix = true ->
  noUnderscore authorId = true ->
  tail = "" \/ (exists t, tail = String "_" t) ->
  let custom_id := (prefix ++ "_" ++ authorId ++ tail)%string in
  ix_data i = MessageComponent custom_id ->
  (canEdit i custom_id = Success true
   <-> invokingUserId i = Some authorId \/ holdsManageChannels i)
  /\ (forall (A : Type) (self : Interaction -> Effect.t A) w h,
        (invokingUserId i = Some authorId \/ holdsManageChannels i ->
         withEditPermissions self i w h = self i w h)
        /\ (~ (invokingUserId i = Some authorId \/ holdsManageChannels i) ->
            exists c, withEditPermissions self i w h = Some ([], Failure c)))
  /\ (forall m p (A : Type) (self : Interaction -> Effect.t A) w h,
        ix_member i = Some m ->
        permissions m = Some p ->
        invokingUserId i <> Some authorId ->
        Z.testbit p 4 = false ->
        withEditPermissions self i w h
        = Some ([], Failure (Failed (PermissionsError "edit" "thread")))).
Proof.
  intros Hp Ha Ht custom_id Hdata.
  pose proof (canEdit_true i custom_id authorId
                (split_second prefix authorId tail Hp Ha Ht)) as Hiff.
  split; [exact Hiff|]. split.
  - intros A self w h.
    rewrite (withEditPermissions_run A self i custom_id w h Hdata). split.
    + intros Hok. apply Hiff in Hok. now rewrite Hok.
    + intros Hno. destruct (canEdit i custom_id) as [[|]|c]; eauto.
      now elim Hno; apply Hiff.
  - intros m p A self w h Hm Hperm Hother Hbit.
    rewrite (withEditPermissions_run A self i custom_id w h Hdata).
    assert (Hcan : canEdit i custom_id = Success false).
    { unfold canEdit, custom_id.
      rewrite (split_second prefix authorId tail Hp Ha Ht).
      fold (invokingUserId i).
      destruct (Js.strict_eq (Some authorId) (invokingUserId i)) eqn:E.
      - apply strict_eq_true in E. now elim Hother.
      - rewrite Hm, Hperm. f_equal.
        destruct (hasManage p) eqn:Hh; [|reflexivity].
        apply hasManage_bit in Hh. congruence. }
    now rewrite Hcan.
Qed.

(** The text after the first underscore of an id that starts with a
    word without underscore. *)
Lemma afterFirst_word (word rest : string) :
  noUnderscore word = true ->
  Spec.afterFirst "_" (word ++ String "_" rest) = Some rest.
Proof.
  induction word as [|c word IH]; simpl; [reflexivity|].
  destruct (Ascii.eqb c "_"); simpl; [discriminate|]. exact IH.
Qed.

(** C6. The custom ids that reach the check are those of the two
    buttons the service posts under a thread, [edit_] or [archive_]
    followed by the id of the author of the message, and a user id of
    the platform has no underscore. On a click on such a button the
    text after the first underscore of the custom id is the author id,
    and the guarded effect is run exactly when the invoking user's id
    is that text or the member's permissions contain the
    MANAGE_CHANNELS bit: the author passes whatever the permission bits
    are, and another user without the bit is refused with a
    [PermissionsError]. *)
Theorem clicks_are_for_the_author_or_a_manager
    (i : Interaction) (authorId : string) (b : Button) :
  noUnderscore authorId = true ->
  In b (buttonsOf (controls authorId)) ->
  ix_data i = MessageComponent (button_custom_id b) ->
  let custom_id := button_custom_id b in
  Spec.authorId custom_id = Some authorId
  /\ (canEdit i custom_id = Success true
      <-> invokingUserId i = Spec.authorId custom_id
          \/ holdsManageChannels i)
  /\ (forall (A : Type) (self : Interaction -> Effect.t A) w h,
        (invokingUserId i = Spec.authorId custom_id
         \/ holdsManageChannels i ->
         withEditPermissions self i w h = self i w h)
        /\ (~ (invokingUserId i = Spec.authorId custom_id
               \/ holdsManageChannels i) ->
            exists c, withEditPermissions self i w h = Some ([], Failure c)))
  /\ (forall (A : Type) (self : Interaction -> Effect.t A) w h,
        invokingUserId i = Spec.authorId custom_id ->
        withEditPermissions self i w h = self i w h)
  /\ (forall m p (A : Type) (self : Interaction -> Effect.t A) w h,
        ix_member i = Some m ->
        permissions m = Some p ->
        invokingUserId i <> Spec.authorId custom_id ->
        Z.testbit p 4 = false ->
        withEditPermissions self i w h
        = Some ([], Failure (Failed (PermissionsError "edit" "thread")))).
Proof.
  intros Ha Hb Hdata custom_id.
  assert (Hid : exists word,
            noUnderscore word = true
            /\ button_custom_id b = (word ++ String "_" authorId)%string).
  { cbn in Hb. destruct Hb as [<-|[<-|[]]];
      [exists "edit" | exists "archive"]; split; reflexivity. }
  destruct Hid as [word [Hw Hid]].
  assert (Hspec : Spec.authorId custom_id = Some authorId).
  { unfold custom_id, Spec.authorId. rewrite Hid.
    exact (afterFirst_word word authorId Hw). }
  assert (Hsplit : nth_error (Js.split "_" custom_id) 1 = Some authorId).
  { unfold custom_id. rewrite Hid, (split_first _ _ Hw). simpl.
    now rewrite (split_plain _ Ha). }
  pose proof (canEdit_true i custom_id authorId Hsplit) as Hiff.
  rewrite Hspec.
  assert (Hguard : forall (A : Type) (self : Interaction -> Effect.t A) w h,
    (invokingUserId i = Some authorId \/ holdsManageChannels i ->
     withEditPermissions self i w h = self i w h)
    /\ (~ (invokingUserId i = Some authorId \/ holdsManageChannels i) ->
        exists c, withEditPermissions self i w h = Some ([], Failure c))).
  { intros A self w h.
    rewrite (withEditPermissions_run A self i custom_id w h Hdata). split.
    - intros Hok. apply Hiff in Hok. now rewrite Hok.
    - intros Hno. destruct (canEdit i custom_id) as [[|]|c]; eauto.
      now elim Hno; apply Hiff. }
  split; [reflexivity|]. split; [exact Hiff|]. split; [exact Hguard|].
  split.
  - intros A self w h Hauthor.
    apply (proj1 (Hguard A self w h)). now left.
  - intros m p A self w h Hm Hperm Hother Hbit.
    rewrite (withEditPermissions_run A self i custom_id w h Hdata).
    assert (Hcan : canEdit i custom_id = Success false).
    { unfold canEdit. rewrite Hsplit. fold (invokingUserId i).
      destruct (Js.strict_eq (Some authorId) (invokingUserId i)) eqn:E.
      - apply strict_eq_true in E. now elim Hother.
      - rewrite Hm, Hperm. f_equal.
        destruct (hasManage p) eqn:Hh; [|reflexivity].
        apply hasManage_bit in Hh. congruence. }
    now rewrite Hcan.
Qed.

Lemma clicks_are_for_the_author_or_a_manager_witness :
  Spec.authorId "archive_1001" = Some "1001"
  /\ (canEdit (Samples.click "archive_1001" "1001" 0) "archive_1001"
      = Success true
      <-> invokingUserId (Samples.click "archive_1001" "1001" 0)
          = Spec.authorId "archive_1001"
          \/ holdsManageChannels (Samples.click "archive_1001" "1001" 0)).
Proof.
  pose proof (clicks_are_for_the_author_or_a_manager
                (Samples.click "archive_1001" "1001" 0) "1001"
                {| button_custom_id := "archive_1001";
                   button_label := "Archive";
                   button_style := Some SECONDARY |}
                eq_refl (or_intror (or_introl eq_refl)) eq_refl) as H.
  exact (conj (proj1 H) (proj1 (proj2 H))).
Defined.

(** An id with a second underscore, which the service never makes: the
    check reads the text between the two underscores. *)
Remark second_underscore_ends_the_author_id :
  canEdit (Samples.click "edit_1_2" "1" 0) "edit_1_2" = Success true
  /\ Spec.authorId "edit_1_2" = Some "1_2".
Proof. split; reflexivity. Qed.

(** The reply the builder gives to a refused click on either button. *)
Lemma ix_denied (i : Interaction) (custom_id : string) (w : World) (h : Trace) :
  ix_data i = MessageComponent custom_id ->
  Js.startsWith custom_id "archive_" = true
  \/ Js.startsWith custom_id "edit_" = true ->
  canEdit i custom_id = Success false ->
  ix i w h
  = Some ([],
          Success
            (Some (CHANNEL_MESSAGE_WITH_SOURCE MessageFlag_EPHEMERAL
                     "You don't have permission to edit this thread."))).
Proof.
  intros Hdata Hentry Hcan. unfold ix, route. rewrite Hdata.
  assert (Harchive :
    archive i w h
    = Some ([], Failure (Failed (PermissionsError "edit" "thread")))).
  { unfold archive.
    now rewrite (withEditPermissions_run _ _ i custom_id w h Hdata), Hcan. }
  assert (Hedit :
    edit i w h
    = Some ([], Failure (Failed (PermissionsError "edit" "thread")))).
  { unfold edit.
    now rewrite (withEditPermissions_run _ _ i custom_id w h Hdata), Hcan. }
  destruct (Js.startsWith custom_id "archive_").
  - run_effect. rewrite Harchive. reflexivity.
  - destruct Hentry as [Hentry|Hentry]; [discriminate|]. rewrite Hentry.
    run_effect. rewrite Hedit. reflexivity.
Qed.

(** C7, as the code has it. A refused click gets an ephemeral reply that
    spells out the action and the subject of the [PermissionsError]; the
    shared check raises it with action "edit" and subject "thread" on
    both buttons, so the reply to a refused click on either of them is
    "You don't have permission to edit this thread." *)
Theorem denial_reply_names_edit
    (i : Interaction) (custom_id : string) (w : World) (h : Trace) :
  ix_data i = MessageComponent custom_id ->
  Js.startsWith custom_id "archive_" = true
  \/ Js.startsWith custom_id "edit_" = true ->
  canEdit i custom_id = Success false ->
  ix i w h
  = Some ([],
          Success
            (Some (CHANNEL_MESSAGE_WITH_SOURCE MessageFlag_EPHEMERAL
                     "You don't have permission to edit this thread.")))
  /\ MessageFlag_EPHEMERAL = 64%Z
  /\ forall action subject,
       permissionDenied (PermissionsError action subject) w h
       = Some ([],
               Success
                 (CHANNEL_MESSAGE_WITH_SOURCE MessageFlag_EPHEMERAL
                    ("You don't have permission to " ++ action ++ " this "
                     ++ subject ++ "."))).
Proof.
  intros Hdata Hentry Hcan.
  split; [exact (ix_denied i custom_id w h Hdata Hentry Hcan)|].
  split; reflexivity.
Qed.

Lemma denial_reply_names_edit_witness :
  ix (Samples.click "edit_1001" "2002" 0)
    (Samples.world (Success Samples.answer)) []
  = Some ([],
          Success
            (Some (CHANNEL_MESSAGE_WITH_SOURCE MessageFlag_EPHEMERAL
                     "You don't have permission to edit this thread."))).
Proof.
  exact (proj1 (denial_reply_names_edit
                  (Samples.click "edit_1001" "2002" 0) "edit_1001"
                  (Samples.world (Success Samples.answer)) []
                  eq_refl (or_intror eq_refl) eq_refl)).
Defined.

(** C7 as the specification words it fails on the archive button: the
    reply to a refused archive says "edit", not "archive". *)
Lemma refused_archive_reply_says_edit :
  ix (Samples.click "archive_1001" "2002" 0)
    (Samples.world (Success Samples.answer)) []
  = Some ([],
          Success
            (Some (CHANNEL_MESSAGE_WITH_SOURCE MessageFlag_EPHEMERAL
                     "You don't have permission to edit this thread.")))
  /\ ix (Samples.click "archive_1001" "2002" 0)
       (Samples.world (Success Samples.answer)) []
     <> Some ([],
              Success
                (Some (CHANNEL_MESSAGE_WITH_SOURCE MessageFlag_EPHEMERAL
                         "You don't have permission to archive this thread."))).
Proof.
  split; [reflexivity|]. intros H. discriminate H.
Qed.

(** C10. On a component interaction whose check does not pass, the
    guarded effect is not run, whatever it is: [withEditPermissions]
    fails before any event. A refused archive sends no request to modify
    the channel, a refused edit looks up no channel and opens no modal;
    the builder's run has no request and answers neither with a modal
    nor with the acknowledgement of a change. *)
Theorem denied_runs_nothing
    (i : Interaction) (custom_id : string) (w : World) (h : Trace) :
  ix_data i = MessageComponent custom_id ->
  canEdit i custom_id <> Success true ->
  (forall (A : Type) (self : Interaction -> Effect.t A),
     exists c,
       withEditPermissions self i w h = Some ([], Failure c)
       /\ (canEdit i custom_id = Success false ->
           c = Failed (PermissionsError "edit" "thread")))
  /\ (exists c, archive i w h = Some ([], Failure c))
  /\ (exists c, edit i w h = Some ([], Failure c))
  /\ exists ev response,
       ix i w h = Some (ev, Success response)
       /\ count isRequest ev = 0
       /\ response <> Some DEFERRED_UPDATE_MESSAGE
       /\ forall id title inputs, response <> Some (MODAL id title inputs).
Proof.
  intros Hdata Hcan.
  assert (Hguard : forall (A : Type) (self : Interaction -> Effect.t A),
            exists c,
              withEditPermissions self i w h = Some ([], Failure c)
              /\ (canEdit i custom_id = Success false ->
                  c = Failed (PermissionsError "edit" "thread"))).
  { intros A self.
    rewrite (withEditPermissions_run A self i custom_id w h Hdata).
    destruct (canEdit i custom_id) as [[|]|c].
    - now elim Hcan.
    - eexists. split; reflexivity.
    - exists c. split; [reflexivity | discriminate]. }
  split; [exact Hguard|].
  destruct (Hguard _ (fun ix =>
              Effect.as_
                (Effect.tap (Effect.succeed ix)
                   (fun ix =>
                      modifyChannel (ix_channel_id ix)
                        {| new_name := None; archived := Some true |}))
                DEFERRED_UPDATE_MESSAGE)) as [ca [Harchive _]].
  fold archive in Harchive.
  destruct (Hguard _ (fun ix =>
              Effect.map
                (channels_call (ix_guild_id ix) (ix_channel_id ix))
                (fun channel =>
                   MODAL "edit" "Edit title"
                     [ {| input_custom_id := "title";
                          input_label := "New title";
                          max_length := 100;
                          input_value := channel_name channel |} ])))
    as [ce [Hedit _]].
  fold edit in Hedit.
  split; [now exists ca|]. split; [now exists ce|].
  assert (Hix : forall c,
            route i w h = Some ([], Failure c) ->
            exists ev response,
              ix i w h = Some (ev, Success response)
              /\ count isRequest ev = 0
              /\ response <> Some DEFERRED_UPDATE_MESSAGE
              /\ forall id title inputs,
                   response <> Some (MODAL id title inputs)).
  { intros c Hroute. unfold ix. run_effect. rewrite Hroute.
    destruct c as [e|d].
    - destruct (String.eqb (_tag e) "PermissionsError") eqn:T.
      + destruct e; try discriminate T. run_effect.
        eexists _, _. split; [reflexivity|].
        split; [reflexivity|]. split; intros; discriminate.
      + eexists _, _. split; [reflexivity|].
        split; [reflexivity|]. split; intros; discriminate.
    - eexists _, _. split; [reflexivity|].
      split; [reflexivity|]. split; intros; discriminate. }
  unfold route in Hix. rewrite Hdata in Hix.
  destruct (Js.startsWith custom_id "archive_"); [now apply (Hix ca)|].
  destruct (Js.startsWith custom_id "edit_"); [now apply (Hix ce)|].
  now apply (Hix (Failed DefinitionNotFound)).
Qed.

Lemma denied_runs_nothing_witness :
  exists c,
    archive (Samples.click "archive_1001" "2002" 0)
      (Samples.world (Success Samples.answer)) []
    = Some ([], Failure c).
Proof.
  assert (Hcan : canEdit (Samples.click "archive_1001" "2002" 0) "archive_1001"
                 <> Success true) by discriminate.
  exact (proj1 (proj2 (denied_runs_nothing
                         (Samples.click "archive_1001" "2002" 0)
                         "archive_1001"
                         (Samples.world (Success Samples.answer)) []
                         eq_refl Hcan))).
Defined.

(** C9. The title submitted with the modal is the new name of the
    channel as it is, the empty title included: the one request of the
    handler renames the interaction's channel to it, whoever submits,
    and once the rename has gone through the interaction is answered
    with the deferred update. *)
Theorem submitted_title_is_the_new_name
    (i : Interaction) (custom_id : string) (values : list (string * string))
    (field title : string) (w : World) (h : Trace) :
  ix_data i = ModalSubmit custom_id values ->
  List.find (fun p => String.eqb (fst p) "title") values
  = Some (field, title) ->
  let rename :=
    {| new_name := Some title; archived := None |} in
  editSubmit i w h
  = Some ([ModifyChannel (ix_channel_id i) rename],
          match rest_modifyChannel w h (ix_channel_id i) rename with
          | Success _ => Success DEFERRED_UPDATE_MESSAGE
          | Failure c => Failure c
          end)
  /\ (custom_id = "edit" ->
      rest_modifyChannel w h (ix_channel_id i) rename = Success tt ->
      ix i w h
      = Some ([ModifyChannel (ix_channel_id i) rename],
              Success (Some DEFERRED_UPDATE_MESSAGE))).
Proof.
  intros Hdata Hfind rename.
  assert (Hrun :
    editSubmit i w h
    = Some ([ModifyChannel (ix_channel_id i) rename],
            match rest_modifyChannel w h (ix_channel_id i) rename with
            | Success _ => Success DEFERRED_UPDATE_MESSAGE
            | Failure c => Failure c
            end)).
  { unfold editSubmit, modalValue, modifyChannel. rewrite Hdata, Hfind.
    run_effect. cbn [fst snd]. rewrite !List.app_nil_r. fold rename.
    destruct (rest_modifyChannel w h (ix_channel_id i) rename) as [[]|c];
      reflexivity. }
  split; [exact Hrun|].
  intros -> Hok. unfold ix, route. rewrite Hdata.
  change ("edit" =? "edit")%string with true.
  run_effect. rewrite Hrun, Hok. reflexivity.
Qed.

Lemma submitted_title_is_the_new_name_witness :
  ix (Samples.submit "") (Samples.world (Success Samples.answer)) []
  = Some ([ModifyChannel (Some "t1")
             {| new_name := Some ""; archived := None |}],
          Success (Some DEFERRED_UPDATE_MESSAGE)).
Proof.
  exact (proj2 (submitted_title_is_the_new_name
                  (Samples.submit "") "edit" [("title", "")] "title" ""
                  (Samples.world (Success Samples.answer)) []
                  eq_refl eq_refl)
               eq_refl eq_refl).
Defined.

(** *** Concrete runs *)

(** A question in the help channel: the classifier answers at once, the
    thread is opened, the controls and the hint are posted. *)
Example run_question :
  handleMessage Samples.keyword 3 Samples.question
    (Samples.world (Success Samples.answer)) []
  = Some ([ChannelsGet (Some "g1") (Some "c1");
           OpenAIFn "message_info" "How do I decode this?";
           StartThreadFromMessage "c1" "m1"
             {| thread_name := "Decoding question";
                auto_archive_duration := 1440 |};
           CreateMessage "t1" (controls "1001");
           CreateMessage "t1" hint],
          Success tt).
Proof. reflexivity. Qed.

(** The same question while the classifier is down and says so at once:
    three attempts, a wait of 500 ms before each retry, the failure
    logged, and the thread under the fallback title, without a hint. *)
Example run_question_classifier_down :
  handleMessage Samples.keyword 3 Samples.question
    (Samples.world Samples.down) []
  = Some ([ChannelsGet (Some "g1") (Some "c1");
           OpenAIFn "message_info" "How do I decode this?";
           Sleep 500;
           OpenAIFn "message_info" "How do I decode this?";
           Sleep 500;
           OpenAIFn "message_info" "How do I decode this?";
           Log LevelInfo (LogCause (Failed (OpenAIError "503")));
           StartThreadFromMessage "c1" "m1"
             {| thread_name := "Al's thread";
                auto_archive_duration := 1440 |};
           CreateMessage "t1" (controls "1001")],
          Success tt).
Proof. reflexivity. Qed.

(** A failure of another kind is not retried. *)
Example run_question_malformed_answer :
  handleMessage Samples.keyword 3 Samples.question
    (Samples.world (Failure (Failed (ParseError ["short_title"])))) []
  = Some ([ChannelsGet (Some "g1") (Some "c1");
           OpenAIFn "message_info" "How do I decode this?";
           Log LevelInfo (LogCause (Failed (ParseError ["short_title"])));
           StartThreadFromMessage "c1" "m1"
             {| thread_name := "Al's thread";
                auto_archive_duration := 1440 |};
           CreateMessage "t1" (controls "1001")],
          Success tt).
Proof. reflexivity. Qed.

(** The message of a bot is dropped before the channel is looked up. *)
Example run_bot_message :
  handleMessage Samples.keyword 3
    {| message_id := "m2";
       message_channel_id := "c1";
       message_guild_id := Some "g1";
       message_type := 0;
       author := {| user_id := "9"; username := "bot"; bot := Some true |};
       member := None;
       content := "beep" |}
    (Samples.world (Success Samples.answer)) []
  = Some ([Log LevelDebug (LogText (Samples.tree ["author"; "bot"]))],
          Success tt).
Proof. reflexivity. Qed.

(** A classifier that takes 300 ms to fail: the second retry comes
    200 ms after the second failure, at the end of the interval. *)
Example run_question_classifier_slow :
  handleMessage Samples.keyword 3 Samples.question (Samples.slow 300) []
  = Some ([ChannelsGet (Some "g1") (Some "c1");
           OpenAIFn "message_info" "How do I decode this?";
           Sleep 500;
           OpenAIFn "message_info" "How do I decode this?";
           Sleep 200;
           OpenAIFn "message_info" "How do I decode this?";
           Log LevelInfo (LogCause (Failed (OpenAIError "503")));
           StartThreadFromMessage "c1" "m1"
             {| thread_name := "Al's thread";
                auto_archive_duration := 1440 |};
           CreateMessage "t1" (controls "1001")],
          Success tt).
Proof. reflexivity. Qed.

(** The author archives the thread; a manager opens the title modal. *)
Example run_archive_by_author :
  ix (Samples.click "archive_1001" "1001" 0)
    (Samples.world (Success Samples.answer)) []
  = Some ([ModifyChannel (Some "t1")
             {| new_name := None; archived := Some true |}],
          Success (Some DEFERRED_UPDATE_MESSAGE)).
Proof. reflexivity. Qed.

Example run_edit_by_manager :
  ix (Samples.click "edit_1001" "2002" 16)
    (Samples.world (Success Samples.answer)) []
  = Some ([ChannelsGet (Some "g1") (Some "t1")],
          Success
            (Some (MODAL "edit" "Edit title"
                     [ {| input_custom_id := "title";
                          input_label := "New title";
                          max_length := 100;
                          input_value := Some "help" |} ]))).
Proof. reflexivity. Qed.

(** ** Further properties of the handlers *)

(** *** The interaction handlers, answer by answer *)

Lemma archive_run (i : Interaction) (custom_id : string) (w : World)
    (h : Trace) :
  ix_data i = MessageComponent custom_id ->
  archive i w h
  = match canEdit i custom_id with
    | Success true =>
        Some ([ModifyChannel (ix_channel_id i) archived_true],
              match rest_modifyChannel w h (ix_channel_id i) archived_true with
              | Success _ => Success DEFERRED_UPDATE_MESSAGE
              | Failure c => Failure c
              end)
    | Success false =>
        Some ([], Failure (Failed (PermissionsError "edit" "thread")))
    | Failure c => Some ([], Failure c)
    end.
Proof.
  intros Hdata. unfold archive.
  rewrite (withEditPermissions_run _ _ i custom_id w h Hdata).
  destruct (canEdit i custom_id) as [[|]|c]; try reflexivity.
  unfold modifyChannel. run_effect. rewrite List.app_nil_r.
  fold archived_true.
  destruct (rest_modifyChannel w h (ix_channel_id i) archived_true)
    as [[]|c]; reflexivity.
Qed.

Lemma edit_run (i : Interaction) (custom_id : string) (w : World)
    (h : Trace) :
  ix_data i = MessageComponent custom_id ->
  edit i w h
  = match canEdit i custom_id with
    | Success true =>
        Some ([ChannelsGet (ix_guild_id i) (ix_channel_id i)],
              match channels_get w h (ix_guild_id i) (ix_channel_id i) with
              | Success channel => Success (titleModal (channel_name channel))
              | Failure c => Failure c
              end)
    | Success false =>
        Some ([], Failure (Failed (PermissionsError "edit" "thread")))
    | Failure c => Some ([], Failure c)
    end.
Proof.
  intros Hdata. unfold edit.
  rewrite (withEditPermissions_run _ _ i custom_id w h Hdata).
  destruct (canEdit i custom_id) as [[|]|c]; try reflexivity.
  unfold channels_call. run_effect.
  destruct (channels_get w h (ix_guild_id i) (ix_channel_id i)) as [ch|c];
    reflexivity.
Qed.

Lemma editSubmit_run (i : Interaction) (w : World) (h : Trace) :
  editSubmit i w h
  = match ix_data i with
    | MessageComponent _ => Some ([], Failure (Died "modalValue: not a modal"))
    | ModalSubmit _ values =>
        match List.find (fun p => String.eqb (fst p) "title") values with
        | None => Some ([], Failure (Failed (ModalValueNotFound "title")))
        | Some (_, title) =>
            Some ([ModifyChannel (ix_channel_id i) (renamed title)],
                  match rest_modifyChannel w h (ix_channel_id i)
                          (renamed title) with
                  | Success _ => Success DEFERRED_UPDATE_MESSAGE
                  | Failure c => Failure c
                  end)
        end
    end.
Proof.
  unfold editSubmit, modalValue, modifyChannel.
  destruct (ix_data i) as [cid|cid values]; [reflexivity|].
  destruct (List.find _ values) as [[field title]|]; [|reflexivity].
  run_effect. cbn [fst snd]. rewrite !List.app_nil_r. fold (renamed title).
  destruct (rest_modifyChannel w h (ix_channel_id i) (renamed title))
    as [[]|c]; reflexivity.
Qed.

(** The two catches of the builder. *)
Lemma ix_run (i : Interaction) (w : World) (h : Trace) :
  ix i w h
  = match route i w h with
    | None => None
    | Some (ev, Success response) => Some (ev, Success (Some response))
    | Some (ev, Failure (Failed (PermissionsError action subject))) =>
        Some (ev, Success (Some (denial action subject)))
    | Some (ev, Failure c) =>
        Some (ev ++ [Log LevelError (LogCause c)], Success None)
    end.
Proof.
  unfold ix. run_effect.
  destruct (route i w h) as [[ev [r|[e|d]]]|]; try reflexivity.
  - now rewrite List.app_nil_r.
  - destruct e; cbn; rewrite ?List.app_nil_r; reflexivity.
Qed.

(** *** Archiving and editing when permitted *)

Lemma edit_is_not_archive (custom_id : string) :
  Js.startsWith custom_id "edit_" = true ->
  Js.startsWith custom_id "archive_" = false.
Proof.
  unfold Js.startsWith. intros H. apply prefix_app in H.
  destruct H as [post ->]. reflexivity.
Qed.

(** X1. A permitted click on an archive button sends exactly one
    request: the interaction's own channel is set to archived, its name
    untouched. The click is acknowledged with the deferred update once
    the platform accepted the change; when the platform fails it, the
    cause is logged as an error and nothing is answered. *)
Theorem permitted_archive_archives_the_channel
    (i : Interaction) (custom_id : string) (w : World) (h : Trace) :
  ix_data i = MessageComponent custom_id ->
  Js.startsWith custom_id "archive_" = true ->
  canEdit i custom_id = Success true ->
  exists logs response,
    ix i w h
    = Some (ModifyChannel (ix_channel_id i)
              {| new_name := None; archived := Some true |} :: logs,
            Success response)
    /\ count isRequest logs = 0
    /\ (rest_modifyChannel w h (ix_channel_id i)
          {| new_name := None; archived := Some true |} = Success tt ->
        logs = [] /\ response = Some DEFERRED_UPDATE_MESSAGE)
    /\ (forall c,
          rest_modifyChannel w h (ix_channel_id i)
            {| new_name := None; archived := Some true |} = Failure c ->
          response <> Some DEFERRED_UPDATE_MESSAGE
          /\ ((forall action subject,
                 c <> Failed (PermissionsError action subject)) ->
              logs = [Log LevelError (LogCause c)] /\ response = None)).
Proof.
  intros Hdata Hentry Hcan.
  rewrite ix_run. unfold route. rewrite Hdata, Hentry.
  rewrite (archive_run i custom_id w h Hdata), Hcan.
  fold archived_true.
  destruct (rest_modifyChannel w h (ix_channel_id i) archived_true)
    as [[]|c].
  - exists [], (Some DEFERRED_UPDATE_MESSAGE).
    repeat split; try reflexivity; intros; discriminate.
  - destruct c as [e|d].
    + destruct e;
        try (eexists _, _; split; [reflexivity|];
             split; [reflexivity|]; split; [discriminate|];
             intros c' Hc'; injection Hc' as <-;
             split; [discriminate|]; intros _; split; reflexivity).
      eexists _, _. split; [reflexivity|]. split; [reflexivity|].
      split; [discriminate|]. intros c' Hc'. injection Hc' as <-.
      split; [discriminate|]. intros Hno. now elim (Hno action subject).
    + eexists _, _. split; [reflexivity|]. split; [reflexivity|].
      split; [discriminate|]. intros c' Hc'. injection Hc' as <-.
      split; [discriminate|]. intros _. split; reflexivity.
Qed.

Lemma permitted_archive_archives_the_channel_witness :
  exists logs response,
    ix (Samples.click "archive_1001" "1001" 0) Samples.refusing []
    = Some (ModifyChannel (Some "t1")
              {| new_name := None; archived := Some true |} :: logs,
            Success response)
    /\ count isRequest logs = 0.
Proof.
  destruct (permitted_archive_archives_the_channel
              (Samples.click "archive_1001" "1001" 0) "archive_1001"
              Samples.refusing [] eq_refl eq_refl eq_refl)
    as [logs [response [Hrun [Hlogs _]]]].
  exists logs, response. split; [exact Hrun | exact Hlogs].
Defined.

(** X2. A permitted click on an edit button looks up the interaction's
    own channel, once, and changes nothing. When the channel is found
    the answer is the modal "edit" with the single text input "title",
    at most 100 characters long and filled with the channel's current
    name; when the lookup fails no modal is opened. *)
Theorem permitted_edit_opens_the_title_modal
    (i : Interaction) (custom_id : string) (w : World) (h : Trace) :
  ix_data i = MessageComponent custom_id ->
  Js.startsWith custom_id "edit_" = true ->
  canEdit i custom_id = Success true ->
  exists logs response,
    ix i w h
    = Some (ChannelsGet (ix_guild_id i) (ix_channel_id i) :: logs,
            Success response)
    /\ count isRequest logs = 0
    /\ (forall channel,
          channels_get w h (ix_guild_id i) (ix_channel_id i)
          = Success channel ->
          logs = []
          /\ response
             = Some (MODAL "edit" "Edit title"
                       [ {| input_custom_id := "title";
                            input_label := "New title";
                            max_length := 100;
                            input_value := channel_name channel |} ]))
    /\ (forall c,
          channels_get w h (ix_guild_id i) (ix_channel_id i) = Failure c ->
          forall id title inputs, response <> Some (MODAL id title inputs)).
Proof.
  intros Hdata Hentry Hcan.
  pose proof (edit_is_not_archive custom_id Hentry) as Hnot.
  rewrite ix_run. unfold route. rewrite Hdata, Hnot, Hentry.
  rewrite (edit_run i custom_id w h Hdata), Hcan.
  destruct (channels_get w h (ix_guild_id i) (ix_channel_id i)) as [ch|c].
  - exists [], (Some (titleModal (channel_name ch))).
    split; [reflexivity|]. split; [reflexivity|]. split.
    + intros ch' Hch. injection Hch as <-. split; reflexivity.
    + intros c Hc. discriminate Hc.
  - destruct c as [e|d]; [destruct e|];
      (eexists _, _; split; [reflexivity|]; split; [reflexivity|];
       split; [intros ch' Hch; discriminate Hch|];
       intros c' _ id title inputs; discriminate).
Qed.

Lemma permitted_edit_opens_the_title_modal_witness :
  exists logs response,
    ix (Samples.click "edit_1001" "1001" 0)
      (Samples.world (Success Samples.answer)) []
    = Some (ChannelsGet (Some "g1") (Some "t1") :: logs, Success response)
    /\ count isRequest logs = 0.
Proof.
  destruct (permitted_edit_opens_the_title_modal
              (Samples.click "edit_1001" "1001" 0) "edit_1001"
              (Samples.world (Success Samples.answer)) []
              eq_refl eq_refl eq_refl)
    as [logs [response [Hrun [Hlogs _]]]].
  exists logs, response. split; [exact Hrun | exact Hlogs].
Defined.

(** *** From the control message to the handlers and back *)

Lemma string_app_empty (s : string) : (s ++ "")%string = s.
Proof. induction s as [|c s IH]; simpl; congruence. Qed.

Lemma startsWith_app (pre post : string) :
  Js.startsWith (pre ++ post) pre = true.
Proof. unfold Js.startsWith. apply prefix_app. now exists post. Qed.

(** X3. The two buttons posted under a new thread find their way back:
    the author id (a string without underscore) is the second segment
    of the custom id of each, a click on "Edit title" is routed to
    [edit] and a click on "Archive" to [archive], and the author's own
    click passes the check on both, whatever the permissions. *)
Theorem control_buttons_lead_back_to_the_author
    (authorId : string) (b : Button) (i : Interaction) :
  noUnderscore authorId = true ->
  In b (buttonsOf (controls authorId)) ->
  ix_data i = MessageComponent (button_custom_id b) ->
  nth_error (Js.split "_" (button_custom_id b)) 1 = Some authorId
  /\ (forall w h,
        route i w h
        = if String.eqb (button_label b) "Archive"
          then archive i w h else edit i w h)
  /\ (button_label b = "Archive" \/ button_label b = "Edit title")
  /\ (invokingUserId i = Some authorId ->
      canEdit i (button_custom_id b) = Success true).
Proof.
  intros Hid Hin Hdata.
  assert (Hseg : nth_error (Js.split "_" (button_custom_id b)) 1
                 = Some authorId).
  { destruct Hin as [<-|[<-|[]]]; cbn [button_custom_id].
    - pose proof (split_second "edit" authorId "" eq_refl Hid
                    (or_introl eq_refl)) as H.
      rewrite string_app_empty in H. exact H.
    - pose proof (split_second "archive" authorId "" eq_refl Hid
                    (or_introl eq_refl)) as H.
      rewrite string_app_empty in H. exact H. }
  split; [exact Hseg|]. split; [|split].
  - intros w h. unfold route. rewrite Hdata.
    destruct Hin as [<-|[<-|[]]]; cbn [button_custom_id button_label].
    + rewrite (edit_is_not_archive _ (startsWith_app "edit_" authorId)).
      now rewrite (startsWith_app "edit_" authorId).
    + now rewrite (startsWith_app "archive_" authorId).
  - destruct Hin as [<-|[<-|[]]]; [now right | now left].
  - intros Huser.
    apply (canEdit_true i (button_custom_id b) authorId Hseg). now left.
Qed.

Lemma control_buttons_lead_back_to_the_author_witness :
  canEdit (Samples.click "edit_1001" "1001" 0) "edit_1001" = Success true.
Proof.
  exact (proj2 (proj2 (proj2
           (control_buttons_lead_back_to_the_author "1001"
              {| button_custom_id := "edit_1001";
                 button_label := "Edit title";
                 button_style := None |}
              (Samples.click "edit_1001" "1001" 0)
              eq_refl (or_introl eq_refl) eq_refl)))
           eq_refl).
Defined.

(** The outcome of a handler that ended in a failure is never a
    modal. *)
Lemma failure_opens_no_modal (ev ev' : Trace) (c : Cause)
    (modal : InteractionResponse) (fill : TextInput -> string)
    (data : InteractionData) :
  match c with
  | Failed (PermissionsError action subject) =>
      Some (ev, Success (Some (denial action subject)))
  | _ => Some (ev ++ [Log LevelError (LogCause c)], Success None)
  end = Some (ev', Success (Some modal)) ->
  submission modal fill = Some data ->
  False.
Proof.
  destruct c as [e|d]; [destruct e|]; intros H; try discriminate H.
  injection H as _ <-. discriminate.
Qed.

(** The only modal the builder answers with is the title modal. *)
Lemma ix_modal (i : Interaction) (w : World) (h ev : Trace)
    (modal : InteractionResponse) (fill : TextInput -> string)
    (data : InteractionData) :
  ix i w h = Some (ev, Success (Some modal)) ->
  submission modal fill = Some data ->
  exists name, modal = titleModal name.
Proof.
  rewrite ix_run. unfold route.
  destruct (ix_data i) as [cid|cid values] eqn:Hdata.
  - destruct (Js.startsWith cid "archive_").
    + rewrite (archive_run i cid w h Hdata).
      destruct (canEdit i cid) as [[|]|c].
      * destruct (rest_modifyChannel w h _ _) as [[]|c].
        -- intros H Hs. injection H as _ <-. discriminate Hs.
        -- intros H Hs. now elim (failure_opens_no_modal _ _ _ _ _ _ H Hs).
      * intros H Hs. injection H as _ <-. discriminate Hs.
      * intros H Hs. now elim (failure_opens_no_modal _ _ _ _ _ _ H Hs).
    + destruct (Js.startsWith cid "edit_").
      * rewrite (edit_run i cid w h Hdata).
        destruct (canEdit i cid) as [[|]|c].
        -- destruct (channels_get w h _ _) as [ch|c].
           ++ intros H _. injection H as _ <-. now exists (channel_name ch).
           ++ intros H Hs.
              now elim (failure_opens_no_modal _ _ _ _ _ _ H Hs).
        -- intros H Hs. injection H as _ <-. discriminate Hs.
        -- intros H Hs. now elim (failure_opens_no_modal _ _ _ _ _ _ H Hs).
      * intros H. discriminate H.
  - destruct (String.eqb cid "edit").
    + rewrite editSubmit_run, Hdata.
      destruct (List.find _ values) as [[field title]|].
      * destruct (rest_modifyChannel w h _ _) as [[]|c].
        -- intros H Hs. injection H as _ <-. discriminate Hs.
        -- intros H Hs. now elim (failure_opens_no_modal _ _ _ _ _ _ H Hs).
      * intros H. discriminate H.
    + intros H. discriminate H.
Qed.

(** X4. The modal comes back as a rename. Whatever modal the builder
    has answered with, it is the one called "edit" with the one field
    "title"; its submission, with any value in the field, is routed to
    [editSubmit], which finds the value and asks for the channel of the
    submission to be renamed to it, and acknowledges once the platform
    accepted. *)
Theorem title_modal_comes_back_as_a_rename
    (i : Interaction) (w : World) (h ev : Trace)
    (modal : InteractionResponse) (fill : TextInput -> string)
    (data : InteractionData) (j : Interaction) (w' : World) (h' : Trace) :
  ix i w h = Some (ev, Success (Some modal)) ->
  submission modal fill = Some data ->
  ix_data j = data ->
  exists input logs response,
    modal = MODAL "edit" "Edit title" [input]
    /\ input_custom_id input = "title"
    /\ ix j w' h'
       = Some (ModifyChannel (ix_channel_id j)
                 {| new_name := Some (fill input); archived := None |}
               :: logs,
               Success response)
    /\ count isRequest logs = 0
    /\ (rest_modifyChannel w' h' (ix_channel_id j)
          {| new_name := Some (fill input); archived := None |}
        = Success tt ->
        logs = [] /\ response = Some DEFERRED_UPDATE_MESSAGE).
Proof.
  intros Hrun Hsub Hdata.
  destruct (ix_modal i w h ev modal fill data Hrun Hsub) as [name ->].
  cbn in Hsub. injection Hsub as <-.
  exists {| input_custom_id := "title";
            input_label := "New title";
            max_length := 100;
            input_value := name |}.
  rewrite ix_run. unfold route. rewrite Hdata.
  change ("edit" =? "edit")%string with true. cbv iota.
  rewrite editSubmit_run, Hdata. cbn [List.find fst input_custom_id].
  change ("title" =? "title")%string with true. cbv iota.
  unfold renamed.
  destruct (rest_modifyChannel w' h' (ix_channel_id j) _) as [[]|c].
  - exists [], (Some DEFERRED_UPDATE_MESSAGE).
    repeat split; reflexivity.
  - destruct c as [e|d]; [destruct e|];
      (eexists _, _; split; [reflexivity|]; split; [reflexivity|];
       split; [reflexivity|]; split; [reflexivity|]; discriminate).
Qed.

Lemma title_modal_comes_back_as_a_rename_witness :
  exists input logs response,
    titleModal (Some "help") = MODAL "edit" "Edit title" [input]
    /\ ix (Samples.submit "Decoding JSON")
         (Samples.world (Success Samples.answer)) []
       = Some (ModifyChannel (Some "t1")
                 {| new_name := Some "Decoding JSON"; archived := None |}
               :: logs,
               Success response).
Proof.
  destruct (title_modal_comes_back_as_a_rename
              (Samples.click "edit_1001" "1001" 0)
              (Samples.world (Success Samples.answer)) []
              [ChannelsGet (Some "g1") (Some "t1")]
              (titleModal (Some "help")) (fun _ => "Decoding JSON")
              (ModalSubmit "edit" [("title", "Decoding JSON")])
              (Samples.submit "Decoding JSON")
              (Samples.world (Success Samples.answer)) []
              eq_refl eq_refl eq_refl)
    as [input [logs [response [Hmodal [_ [Hrun _]]]]]].
  exists input, logs, response. split; [exact Hmodal | exact Hrun].
Defined.

(** *** What an interaction can reach *)

(** The requests of a handler: none, one change of the interaction's
    channel, or one lookup of it. *)
Lemma route_events (i : Interaction) (w : World) (h : Trace) :
  exists ev r,
    route i w h = Some (ev, r)
    /\ (ev = []
        \/ ev = [ModifyChannel (ix_channel_id i) archived_true]
        \/ (exists title,
              ev = [ModifyChannel (ix_channel_id i) (renamed title)])
        \/ ev = [ChannelsGet (ix_guild_id i) (ix_channel_id i)]).
Proof.
  unfold route. destruct (ix_data i) as [cid|cid values] eqn:Hdata.
  - destruct (Js.startsWith cid "archive_").
    + rewrite (archive_run i cid w h Hdata).
      destruct (canEdit i cid) as [[|]|c]; eauto 6.
    + destruct (Js.startsWith cid "edit_").
      * rewrite (edit_run i cid w h Hdata).
        destruct (canEdit i cid) as [[|]|c]; eauto 7.
      * eexists _, _. split; [reflexivity|]. now left.
  - destruct (String.eqb cid "edit").
    + rewrite editSubmit_run, Hdata.
      destruct (List.find _ values) as [[field title]|]; eauto 8.
    + eexists _, _. split; [reflexivity|]. now left.
Qed.

(** X5. An interaction reaches its own channel and nothing else. The
    builder always ends normally; its run holds at most one request,
    which is either the lookup of the interaction's guild and channel
    or a change of the interaction's channel (archived, or a new name);
    it opens no thread and posts no message. *)
Theorem interaction_reaches_only_its_channel
    (i : Interaction) (w : World) (h : Trace) :
  exists ev response,
    ix i w h = Some (ev, Success response)
    /\ count isRequest ev <= 1
    /\ count isThreadRequest ev = 0
    /\ count isPost ev = 0
    /\ (forall channel params,
          In (ModifyChannel channel params) ev ->
          channel = ix_channel_id i
          /\ (params = {| new_name := None; archived := Some true |}
              \/ exists title,
                   params = {| new_name := Some title; archived := None |}))
    /\ (forall guild channel,
          In (ChannelsGet guild channel) ev ->
          guild = ix_guild_id i /\ channel = ix_channel_id i).
Proof.
  destruct (route_events i w h) as [ev [r [Hroute Hev]]].
  assert (Hix : exists log response,
            ix i w h = Some (ev ++ log, Success response)
            /\ (log = [] \/ exists c, log = [Log LevelError (LogCause c)])).
  { rewrite ix_run, Hroute. destruct r as [r|[e|d]].
    - exists [], (Some r). rewrite List.app_nil_r. auto.
    - destruct e;
        try (eexists _, _; split; [reflexivity|]; right; eauto).
      exists [], (Some (denial action subject)).
      rewrite List.app_nil_r. auto.
    - eexists _, _. split; [reflexivity|]. right. eauto. }
  destruct Hix as [log [response [Hrun Hlog]]].
  exists (ev ++ log), response. split; [exact Hrun|].
  assert (Hin : forall e, In e (ev ++ log) -> In e ev \/ isLog e = true).
  { intros e He. apply List.in_app_or in He. destruct He as [He|He]; auto.
    right. destruct Hlog as [-> | [c ->]]; [destruct He|].
    destruct He as [<-|[]]. reflexivity. }
  rewrite !count_app.
  assert (Hcl : count isRequest log = 0 /\ count isThreadRequest log = 0
                /\ count isPost log = 0).
  { destruct Hlog as [-> | [c ->]]; repeat split; reflexivity. }
  destruct Hcl as [-> [-> ->]].
  destruct Hev as [-> | [-> | [[title ->] | ->]]];
    (split; [unfold count; simpl; lia|]);
    (split; [reflexivity|]); (split; [reflexivity|]); split;
    intros a b Hab; destruct (Hin _ Hab) as [H|H];
    try discriminate H; simpl in H; try contradiction;
    destruct H as [H|[]]; try discriminate H;
    inversion H; subst; clear H.
  - split; [reflexivity | now left].
  - split; [reflexivity | right; now exists title].
  - split; reflexivity.
Qed.

(** *** Edge cases of the interactions *)

Lemma find_absent (values : list (string * string)) (name : string) :
  (forall field value, In (field, value) values -> field <> name) ->
  List.find (fun p => String.eqb (fst p) name) values = None.
Proof.
  intros Habsent. induction values as [|[field value] values IH];
    [reflexivity|].
  simpl. destruct (String.eqb_spec field name) as [E|N].
  - now elim (Habsent field value (or_introl eq_refl)).
  - apply IH. intros f v Hin. apply (Habsent f v). now right.
Qed.

(** X6. A submission that has no field called "title" renames nothing:
    the run holds no request and the interaction gets no answer. *)
Theorem submission_without_title_renames_nothing
    (i : Interaction) (custom_id : string) (values : list (string * string))
    (w : World) (h : Trace) :
  ix_data i = ModalSubmit custom_id values ->
  (forall field value, In (field, value) values -> field <> "title") ->
  editSubmit i w h = Some ([], Failure (Failed (ModalValueNotFound "title")))
  /\ exists c,
       ix i w h = Some ([Log LevelError (LogCause c)], Success None).
Proof.
  intros Hdata Habsent.
  pose proof (find_absent values "title" Habsent) as Hfind.
  assert (Hrun : editSubmit i w h
                 = Some ([], Failure (Failed (ModalValueNotFound "title")))).
  { now rewrite editSubmit_run, Hdata, Hfind. }
  split; [exact Hrun|].
  rewrite ix_run. unfold route. rewrite Hdata.
  destruct (String.eqb custom_id "edit").
  - rewrite Hrun. eexists. reflexivity.
  - eexists. reflexivity.
Qed.

Lemma submission_without_title_renames_nothing_witness :
  exists c,
    ix Samples.emptySubmit (Samples.world (Success Samples.answer)) []
    = Some ([Log LevelError (LogCause c)], Success None).
Proof.
  assert (Habsent : forall field value : string,
            In (field, value) [("name", "x")] -> field <> "title").
  { intros field value [H|[]]. injection H as <- _. discriminate. }
  exact (proj2 (submission_without_title_renames_nothing
                  Samples.emptySubmit "edit" [("name", "x")]
                  (Samples.world (Success Samples.answer)) []
                  eq_refl Habsent)).
Defined.

Lemma split_nonempty (sep : ascii) (s : string) :
  exists first rest, Js.split sep s = first :: rest.
Proof.
  induction s as [|c s [first [rest IH]]]; simpl; [eauto|].
  destruct (Ascii.eqb c sep); [eauto|]. rewrite IH. eauto.
Qed.

(** A custom id of an entry point has a second segment. *)
Lemma entry_has_author (custom_id : string) :
  Js.startsWith custom_id "archive_" = true
  \/ Js.startsWith custom_id "edit_" = true ->
  exists authorId, nth_error (Js.split "_" custom_id) 1 = Some authorId.
Proof.
  unfold Js.startsWith.
  intros [H|H]; apply prefix_app in H; destruct H as [post ->].
  - change ("archive_" ++ post)%string
      with ("archive" ++ String "_" post)%string.
    rewrite (split_first "archive" post eq_refl).
    destruct (split_nonempty "_" post) as [first [rest ->]]. now exists first.
  - change ("edit_" ++ post)%string with ("edit" ++ String "_" post)%string.
    rewrite (split_first "edit" post eq_refl).
    destruct (split_nonempty "_" post) as [first [rest ->]]. now exists first.
Qed.

(** X7. A click on either button that carries no member is never let
    through: reading its permissions throws, the defect is logged as an
    error, the run holds no request and the click gets no answer. *)
Theorem click_without_member_gets_nothing
    (i : Interaction) (custom_id : string) (w : World) (h : Trace) :
  ix_data i = MessageComponent custom_id ->
  Js.startsWith custom_id "archive_" = true
  \/ Js.startsWith custom_id "edit_" = true ->
  ix_member i = None ->
  exists defect,
    canEdit i custom_id = Failure (Died defect)
    /\ ix i w h
       = Some ([Log LevelError (LogCause (Died defect))], Success None).
Proof.
  intros Hdata Hentry Hmember.
  destruct (entry_has_author custom_id Hentry) as [authorId Hauthor].
  assert (Hcan : canEdit i custom_id
                 = Failure
                     (Died "TypeError: Cannot read properties of undefined")).
  { unfold canEdit. now rewrite Hauthor, Hmember. }
  eexists. split; [exact Hcan|].
  rewrite ix_run. unfold route. rewrite Hdata.
  destruct (Js.startsWith custom_id "archive_").
  - now rewrite (archive_run i custom_id w h Hdata), Hcan.
  - destruct Hentry as [Hentry|Hentry]; [discriminate|]. rewrite Hentry.
    now rewrite (edit_run i custom_id w h Hdata), Hcan.
Qed.

Lemma click_without_member_gets_nothing_witness :
  exists defect,
    ix (Samples.strangerClick "archive_1001")
      (Samples.world (Success Samples.answer)) []
    = Some ([Log LevelError (LogCause (Died defect))], Success None).
Proof.
  destruct (click_without_member_gets_nothing
              (Samples.strangerClick "archive_1001") "archive_1001"
              (Samples.world (Success Samples.answer)) []
              eq_refl (or_introl eq_refl) eq_refl)
    as [defect [_ Hrun]].
  exists defect. exact Hrun.
Defined.

(** *** The shape of a handled message *)

Lemma threadSteps_trace (channel : string) (m : Message) (info : MessageInfo)
    (w : World) (h : Trace) :
  exists evt r,
    threadSteps channel m info w h = Some (evt, r)
    /\ ThreadTrace w h channel m info evt.
Proof.
  rewrite threadSteps_run. cbv zeta.
  destruct (rest_startThreadFromMessage w h channel (message_id m) _)
    as [thread|c] eqn:Hstart.
  - destruct (rest_createMessage w (h ++ _) (thread_id thread) (controls _))
      as [[]|c] eqn:Hpost.
    + destruct (missingCodeFences info) eqn:Hmissing.
      * eexists _, _. split; [reflexivity|].
        eapply hint_posted; eassumption.
      * eexists _, _. split; [reflexivity|].
        eapply controls_posted; eassumption.
    + eexists _, _. split; [reflexivity|].
      eapply controls_refused; eassumption.
  - eexists _, _. split; [reflexivity|].
    eapply thread_refused; eassumption.
Qed.

Lemma handleMessage_trace (topicKeyword : string) (fuel : nat) (m : Message)
    (w : World) (h : Trace) :
  3 <= fuel ->
  exists ev,
    handleMessage topicKeyword fuel m w h = Some (ev, Success tt)
    /\ HandlerTrace topicKeyword fuel w h m ev.
Proof.
  intros Hfuel. rewrite handleMessage_run, pipeline_run.
  destruct (messageIssue m) as [path|] eqn:Hm.
  { eexists. split; [reflexivity|].
    eapply message_dropped; eassumption. }
  destruct (channels_get w h _ _) as [ch|c] eqn:Hch.
  2:{ eexists. split; [reflexivity|].
      eapply channel_not_found; eassumption. }
  destruct (channelIssue topicKeyword ch) as [path|] eqn:Hc.
  { eexists. split; [reflexivity|].
    eapply channel_dropped; eassumption. }
  destruct (classify fuel m w (h ++ [channelLookup m]))
    as [[evc [info|c]]|] eqn:Hclass.
  - destruct (threadSteps_trace (channel_id ch) m info w
                (h ++ channelLookup m :: evc)) as [evt [r [-> Hevt]]].
    destruct r as [thread|c].
    + exists (channelLookup m :: evc ++ evt ++ []). split.
      * now rewrite List.app_nil_r.
      * eapply thread_opened; eauto.
    + exists (channelLookup m :: evc ++ evt ++ [topLevelLog w c]). split.
      * cbn [List.app]. now rewrite <- List.app_assoc.
      * eapply thread_opened; eauto.
  - eexists. split; [reflexivity|].
    eapply classifier_died; eassumption.
  - rewrite (classify_run fuel m w _ Hfuel) in Hclass. discriminate Hclass.
Qed.

(** The events of the classification: attempts, sleeps and at most one
    log entry. *)
Lemma classify_events (fuel : nat) (m : Message) (w : World) (h : Trace)
    (evc : Trace) (r : Exit MessageInfo) (p : Event -> bool) :
  3 <= fuel ->
  classify fuel m w h = Some (evc, r) ->
  (forall fn input, p (OpenAIFn fn input) = false) ->
  (forall d, p (Sleep d) = false) ->
  (forall level message, p (Log level message) = false) ->
  count p evc = 0.
Proof.
  intros Hfuel Hrun Ha Hs Hl. rewrite (classify_run fuel m w h Hfuel) in Hrun.
  pose proof (retried_count p w messageInfo (content m) h
                (Ha messageInfo (content m)) Hs) as Hev.
  destruct (retried w messageInfo (content m) h) as [ev r'].
  cbv zeta in Hrun. cbn [fst snd] in *.
  destruct r' as [info|[e|d]]; injection Hrun as <- _;
    rewrite ?count_app, ?Hev; unfold count; simpl;
    rewrite ?Hl; reflexivity.
Qed.

Lemma classify_attempts (fuel : nat) (m : Message) (w : World) (h : Trace)
    (evc : Trace) (r : Exit MessageInfo) :
  3 <= fuel ->
  classify fuel m w h = Some (evc, r) ->
  1 <= count isAttempt evc <= 3.
Proof.
  intros Hfuel Hrun. rewrite (classify_run fuel m w h Hfuel) in Hrun.
  destruct (retried_attempts w messageInfo (content m) h) as [Hev _].
  destruct (retried w messageInfo (content m) h) as [ev r'].
  cbv zeta in Hrun. cbn [fst snd] in *.
  set (n := count isAttempt ev) in *. 
  destruct r' as [info|[e|d]]; injection Hrun as <- _;
    rewrite ?count_app; fold n; clearbody n; unfold count; simpl; lia.
Qed.

(** The counts of a handled message. *)
Lemma handler_counts (topicKeyword : string) (fuel : nat) (w : World)
    (h : Trace) (m : Message) (ev : Trace) :
  3 <= fuel ->
  HandlerTrace topicKeyword fuel w h m ev ->
  count isThreadRequest ev <= 1
  /\ count isPost ev <= 2
  /\ count isLookup ev <= 1
  /\ count isModify ev = 0
  /\ count isAttempt ev <= 3.
Proof.
  intros Hfuel Hev.
  destruct Hev as [path Hm | c Hm Hch | ch path Hm Hch Hc
                  | ch evc c Hm Hch Hc Hclass
                  | ch evc evt logs info Hm Hch Hc Hclass Hevt Hlogs].
  - unfold count. simpl. lia.
  - destruct (topLevelLog_is_log w c) as [level [message ->]].
    unfold count. simpl. lia.
  - unfold count. simpl. lia.
  - pose proof (classify_attempts fuel m w _ evc _ Hfuel Hclass) as Ha.
    destruct (topLevelLog_is_log w c) as [level [message ->]].
    count_events.
    rewrite (classify_events fuel m w _ evc _ isThreadRequest Hfuel Hclass),
      (classify_events fuel m w _ evc _ isPost Hfuel Hclass),
      (classify_events fuel m w _ evc _ isLookup Hfuel Hclass),
      (classify_events fuel m w _ evc _ isModify Hfuel Hclass)
      by reflexivity.
    set (n := count isAttempt evc) in *. clearbody n.
    unfold count. simpl. lia.
  - pose proof (classify_attempts fuel m w _ evc _ Hfuel Hclass) as Ha.
    assert (Hl : count isThreadRequest logs = 0 /\ count isPost logs = 0
                 /\ count isLookup logs = 0 /\ count isModify logs = 0
                 /\ count isAttempt logs = 0).
    { destruct Hlogs as [-> | [c ->]].
      - repeat split; reflexivity.
      - destruct (topLevelLog_is_log w c) as [level [message ->]].
        repeat split; reflexivity. }
    destruct Hl as [Hl1 [Hl2 [Hl3 [Hl4 Hl5]]]].
    rewrite !count_cons, !count_app, Hl1, Hl2, Hl3, Hl4, Hl5.
    rewrite (classify_events fuel m w _ evc _ isThreadRequest Hfuel Hclass),
      (classify_events fuel m w _ evc _ isPost Hfuel Hclass),
      (classify_events fuel m w _ evc _ isLookup Hfuel Hclass),
      (classify_events fuel m w _ evc _ isModify Hfuel Hclass)
      by reflexivity.
    set (n := count isAttempt evc) in *. clearbody n.
    destruct Hevt; unfold count; simpl; lia.
Qed.

(** X8. One message, one thread at most. Whatever the collaborators
    answer, the handling of one message looks its channel up at most
    once, asks the classifier at most three times, asks for at most one
    thread and posts at most two messages; it never modifies a channel,
    so a thread whose controls could not be posted is left as it is.
    Over a list of events there are at most as many thread requests as
    events. *)
Theorem one_thread_per_message
    (topicKeyword : string) (fuel : nat) (w : World) :
  3 <= fuel ->
  (forall m h,
     exists ev,
       handleMessage topicKeyword fuel m w h = Some (ev, Success tt)
       /\ count isLookup ev <= 1
       /\ count isAttempt ev <= 3
       /\ count isThreadRequest ev <= 1
       /\ count isPost ev <= 2
       /\ count isModify ev = 0)
  /\ (forall events h,
        exists ev,
          handleMessages topicKeyword fuel events w h = Some (ev, Success tt)
          /\ count isThreadRequest ev <= List.length events
          /\ count isModify ev = 0).
Proof.
  intros Hfuel.
  assert (Hone : forall m h,
            exists ev,
              handleMessage topicKeyword fuel m w h = Some (ev, Success tt)
              /\ count isLookup ev <= 1
              /\ count isAttempt ev <= 3
              /\ count isThreadRequest ev <= 1
              /\ count isPost ev <= 2
              /\ count isModify ev = 0).
  { intros m h.
    destruct (handleMessage_trace topicKeyword fuel m w h Hfuel)
      as [ev [Hrun Hev]].
    destruct (handler_counts topicKeyword fuel w h m ev Hfuel Hev)
      as [H1 [H2 [H3 [H4 H5]]]].
    exists ev. repeat split; assumption. }
  split; [exact Hone|].
  intros events. induction events as [|m rest IH]; intros h.
  - exists []. repeat split; reflexivity || (simpl; lia).
  - destruct (Hone m h) as [ev [Hm [_ [_ [Ht [_ Hmod]]]]]].
    destruct (IH (h ++ ev)) as [ev' [Hrest [Ht' Hmod']]].
    exists (ev ++ ev').
    rewrite (handleMessages_cons topicKeyword fuel m rest w h ev Hm), Hrest.
    split; [reflexivity|]. rewrite !count_app. simpl. lia.
Qed.

Lemma one_thread_per_message_witness :
  exists ev,
    handleMessages Samples.keyword 3 [Samples.question; Samples.question]
      (Samples.world (Success Samples.answer)) [] = Some (ev, Success tt)
    /\ count isThreadRequest ev <= 2.
Proof.
  destruct (proj2 (one_thread_per_message Samples.keyword 3
                     (Samples.world (Success Samples.answer)) (le_n 3))
              [Samples.question; Samples.question] [])
    as [ev [Hrun [Hcount _]]].
  exists ev. split; [exact Hrun | exact Hcount].
Defined.

Lemma count_zero_In (p : Event -> bool) (ev : Trace) (e : Event) :
  count p ev = 0 -> In e ev -> p e = false.
Proof.
  unfold count. induction ev as [|x ev IH]; simpl; [contradiction|].
  destruct (p x) eqn:Hx; simpl; [discriminate|].
  intros H [<-|Hin]; auto.
Qed.

(** A message posted by the handler is posted by the steps of the
    thread. *)
Lemma post_in_handler_trace (topicKeyword : string) (fuel : nat) (w : World)
    (h : Trace) (m : Message) (ev : Trace) (channel : string)
    (params : CreateMessageParams) :
  3 <= fuel ->
  HandlerTrace topicKeyword fuel w h m ev ->
  In (CreateMessage channel params) ev ->
  exists target evc evt logs info,
    ev = channelLookup m :: evc ++ evt ++ logs
    /\ ThreadTrace w (h ++ channelLookup m :: evc) target m info evt
    /\ In (CreateMessage channel params) evt.
Proof.
  intros Hfuel Hev Hin.
  destruct Hev as [path Hm | c Hm Hch | ch path Hm Hch Hc
                  | ch evc c Hm Hch Hc Hclass
                  | ch evc evt logs info Hm Hch Hc Hclass Hevt Hlogs].
  - destruct Hin as [H|[]]. discriminate H.
  - destruct (topLevelLog_is_log w c) as [level [message Hlog]].
    rewrite Hlog in Hin. destruct Hin as [H|[H|[]]]; discriminate H.
  - destruct Hin as [H|[H|[]]]; discriminate H.
  - destruct (topLevelLog_is_log w c) as [level [message Hlog]].
    rewrite Hlog in Hin. destruct Hin as [H|Hin]; [discriminate H|].
    apply List.in_app_or in Hin. destruct Hin as [Hin|[H|[]]];
      [|discriminate H].
    pose proof (classify_events fuel m w _ evc _ isPost Hfuel Hclass
                  (fun _ _ => eq_refl) (fun _ => eq_refl)
                  (fun _ _ => eq_refl)) as Hz.
    pose proof (count_zero_In isPost evc _ Hz Hin) as Hp. discriminate Hp.
  - destruct Hin as [H|Hin]; [discriminate H|].
    apply List.in_app_or in Hin. destruct Hin as [Hin|Hin].
    + pose proof (classify_events fuel m w _ evc _ isPost Hfuel Hclass
                    (fun _ _ => eq_refl) (fun _ => eq_refl)
                    (fun _ _ => eq_refl)) as Hz.
      pose proof (count_zero_In isPost evc _ Hz Hin) as Hp. discriminate Hp.
    + apply List.in_app_or in Hin. destruct Hin as [Hin|Hin].
      * exists (channel_id ch), evc, evt, logs, info. auto.
      * destruct Hlogs as [-> | [c ->]]; [destruct Hin|].
        destruct (topLevelLog_is_log w c) as [level [message Hlog]].
        rewrite Hlog in Hin. destruct Hin as [H|[]]. discriminate H.
Qed.

(** X9. Messages go into the new thread only. Every message the handler
    posts is either the control message or the hint, and it is posted
    into the thread that the platform returned for the thread request
    earlier in the same run; the hint is posted right after a control
    message that the platform accepted. So nothing is posted when the
    thread was refused, and no hint when the controls were. *)
Theorem messages_go_into_the_new_thread
    (topicKeyword : string) (fuel : nat) (w : World) (h : Trace)
    (m : Message) :
  3 <= fuel ->
  exists ev,
    handleMessage topicKeyword fuel m w h = Some (ev, Success tt)
    /\ (forall channel params,
          In (CreateMessage channel params) ev ->
          exists pre post target name thread,
            ev = pre
                 ++ StartThreadFromMessage target (message_id m)
                      {| thread_name := name; auto_archive_duration := 1440 |}
                 :: post
            /\ rest_startThreadFromMessage w (h ++ pre) target (message_id m)
                 {| thread_name := name; auto_archive_duration := 1440 |}
               = Success thread
            /\ channel = thread_id thread
            /\ In (CreateMessage channel params) post
            /\ (params = controls (user_id (author m)) \/ params = hint))
    /\ (forall channel,
          In (CreateMessage channel hint) ev ->
          exists pre logs,
            ev = pre
                 ++ CreateMessage channel (controls (user_id (author m)))
                 :: CreateMessage channel hint :: logs
            /\ rest_createMessage w (h ++ pre) channel
                 (controls (user_id (author m))) = Success tt).
Proof.
  intros Hfuel.
  destruct (handleMessage_trace topicKeyword fuel m w h Hfuel)
    as [ev [Hrun Hev]].
  exists ev. split; [exact Hrun|]. split.
  - intros channel params Hin.
    destruct (post_in_handler_trace topicKeyword fuel w h m ev channel params
                Hfuel Hev Hin)
      as [target [evc [evt [logs [info [-> [Hevt Hin']]]]]]].
    exists (channelLookup m :: evc).
    destruct Hevt as [c Hs | thread c Hs Hp | thread Hs Hp Hno
                     | thread Hs Hp Hyes];
      unfold threadRequest in *.
    + destruct Hin' as [H|[]]. discriminate H.
    + destruct Hin' as [H|[H|[]]]; [discriminate H|]. injection H as <- <-.
      eexists _, target, _, thread. split; [reflexivity|].
      split; [exact Hs|]. split; [reflexivity|].
      split; [now left | now left].
    + destruct Hin' as [H|[H|[]]]; [discriminate H|]. injection H as <- <-.
      eexists _, target, _, thread. split; [reflexivity|].
      split; [exact Hs|]. split; [reflexivity|].
      split; [now left | now left].
    + destruct Hin' as [H|[H|[H|[]]]]; [discriminate H| |];
        injection H as <- <-;
        (eexists _, target, _, thread; split; [reflexivity|];
         split; [exact Hs|]; split; [reflexivity|]).
      * split; [now left | now left].
      * split; [right; now left | now right].
  - intros channel Hin.
    destruct (post_in_handler_trace topicKeyword fuel w h m ev channel hint
                Hfuel Hev Hin)
      as [target [evc [evt [logs [info [-> [Hevt Hin']]]]]]].
    destruct Hevt as [c Hs | thread c Hs Hp | thread Hs Hp Hno
                     | thread Hs Hp Hyes].
    + destruct Hin' as [H|[]]. discriminate H.
    + destruct Hin' as [H|[H|[]]]; discriminate H.
    + destruct Hin' as [H|[H|[]]]; discriminate H.
    + destruct Hin' as [H|[H|[H|[]]]]; try discriminate H.
      injection H as <-.
      exists (channelLookup m :: evc ++ [threadRequest target m info]), logs.
      split.
      * cbn [List.app]. now rewrite <- List.app_assoc.
      * rewrite <- Hp. f_equal.
        now rewrite <- List.app_assoc.
Qed.

Lemma messages_go_into_the_new_thread_witness :
  3 <= 3
  /\ exists ev,
       handleMessage Samples.keyword 3 Samples.question
         Samples.refusing [] = Some (ev, Success tt).
Proof.
  split; [lia|].
  destruct (messages_go_into_the_new_thread Samples.keyword 3
              Samples.refusing [] Samples.question (le_n 3))
    as [ev [Hrun _]].
  exists ev. exact Hrun.
Defined.

(** What the handler leaves for a message it drops. *)
Lemma dropped_trace (topicKeyword : string) (fuel : nat) (w : World)
    (h : Trace) (m : Message) (ev : Trace) :
  HandlerTrace topicKeyword fuel w h m ev ->
  (~ eligibleMessage m ->
   exists text, ev = [Log LevelDebug (LogText text)])
  /\ (forall ch,
        eligibleMessage m ->
        channels_get w h (message_guild_id m) (Some (message_channel_id m))
        = Success ch ->
        ~ eligibleChannel topicKeyword ch ->
        exists text, ev = [channelLookup m; Log LevelDebug (LogText text)]).
Proof.
  intros Hev.
  destruct Hev as [path Hm | c Hm Hch | ch path Hm Hch Hc
                  | ch evc c Hm Hch Hc Hclass
                  | ch evc evt logs info Hm Hch Hc Hclass Hevt Hlogs];
    split.
  all: try (intros Hno; apply messageIssue_none in Hm; contradiction).
  all: try (intros ch' Hyes Hch' Hno; rewrite Hch in Hch';
            first [ discriminate Hch'
                  | injection Hch' as <-;
                    apply channelIssue_none in Hc; contradiction ]).
  - intros _. eauto.
  - intros ch Hyes. apply messageIssue_none in Hyes. congruence.
  - intros ch' _ Hch' _. rewrite Hch in Hch'. injection Hch' as <-. eauto.
Qed.

(** X10. A message that is dropped costs nothing. For a message of
    another type or from a bot the handler asks nobody: its whole trace
    is one debug entry. For an eligible message in a channel that is not
    eligible the trace is the lookup and one debug entry. The
    classifier is asked only for an eligible message in an eligible
    channel. *)
Theorem dropped_message_costs_nothing
    (topicKeyword : string) (fuel : nat) (w : World) (h : Trace)
    (m : Message) :
  3 <= fuel ->
  exists ev,
    handleMessage topicKeyword fuel m w h = Some (ev, Success tt)
    /\ (~ eligibleMessage m ->
        exists text, ev = [Log LevelDebug (LogText text)])
    /\ (forall ch,
          eligibleMessage m ->
          channels_get w h (message_guild_id m)
            (Some (message_channel_id m)) = Success ch ->
          ~ eligibleChannel topicKeyword ch ->
          exists text,
            ev = [ChannelsGet (message_guild_id m)
                    (Some (message_channel_id m));
                  Log LevelDebug (LogText text)])
    /\ (0 < count isAttempt ev ->
        eligibleMessage m
        /\ exists ch,
             channels_get w h (message_guild_id m)
               (Some (message_channel_id m)) = Success ch
             /\ eligibleChannel topicKeyword ch).
Proof.
  intros Hfuel.
  destruct (handleMessage_trace topicKeyword fuel m w h Hfuel)
    as [ev [Hrun Hev]].
  exists ev. split; [exact Hrun|].
  destruct (dropped_trace topicKeyword fuel w h m ev Hev) as [Hd1 Hd2].
  split; [exact Hd1|]. split; [exact Hd2|].
  intros Hasked.
  destruct Hev as [path Hm | c Hm Hch | ch path Hm Hch Hc
                  | ch evc c Hm Hch Hc Hclass
                  | ch evc evt logs info Hm Hch Hc Hclass Hevt Hlogs].
  - unfold count in Hasked. simpl in Hasked. lia.
  - destruct (topLevelLog_is_log w c) as [level [message Hlog]].
    rewrite Hlog in Hasked. unfold count in Hasked. simpl in Hasked. lia.
  - unfold count in Hasked. simpl in Hasked. lia.
  - split; [now apply messageIssue_none|].
    exists ch. split; [exact Hch | now apply channelIssue_none].
  - split; [now apply messageIssue_none|].
    exists ch. split; [exact Hch | now apply channelIssue_none].
Qed.

Lemma dropped_message_costs_nothing_witness :
  3 <= 3
  /\ exists ev,
       handleMessage "[never]" 3 Samples.question
         (Samples.world (Success Samples.answer)) [] = Some (ev, Success tt)
       /\ exists text,
            ev = [ChannelsGet (Some "g1") (Some "c1");
                  Log LevelDebug (LogText text)].
Proof.
  split; [lia|].
  destruct (dropped_message_costs_nothing "[never]" 3
              (Samples.world (Success Samples.answer)) []
              Samples.question (le_n 3))
    as [ev [Hrun [_ [Hdropped _]]]].
  exists ev. split; [exact Hrun|].
  apply (Hdropped Samples.help).
  - split; [reflexivity | discriminate].
  - reflexivity.
  - intros [_ [t [Ht Hi]]]. injection Ht as <-. discriminate Hi.
Defined.

(** X11. The classifier recovers from transient failures. When the
    first attempt fails with the transient kind and the second, 500 ms
    later, answers, or the first two fail so and the third answers, the
    classification is that answer, not the fallback, and nothing is
    logged. The third attempt comes after the wait the schedule gives
    once the second has failed: what is left of the 500 ms interval,
    and no wait when the second attempt took more than 500 ms. *)
Theorem classifier_recovers_from_transient_failures
    (fuel : nat) (m : Message) (w : World) (h : Trace) (e1 : Error)
    (info : MessageInfo) :
  3 <= fuel ->
  let ask := OpenAIFn messageInfo (content m) in
  openai_fn w h messageInfo (content m) = Failure (Failed e1) ->
  _tag e1 = "OpenAIError" ->
  (openai_fn w (h ++ [ask; Sleep 500]) messageInfo (content m)
   = Success info ->
   classify fuel m w h = Some ([ask; Sleep 500; ask], Success info))
  /\ (forall e2,
        openai_fn w (h ++ [ask; Sleep 500]) messageInfo (content m)
        = Failure (Failed e2) ->
        _tag e2 = "OpenAIError" ->
        let pause :=
          sleepFor (secondWait (clock w (h ++ [ask]))
                      (clock w (h ++ [ask; Sleep 500; ask]))) in
        (openai_fn w (h ++ [ask; Sleep 500; ask] ++ pause)
           messageInfo (content m) = Success info ->
         classify fuel m w h
         = Some ([ask; Sleep 500; ask] ++ pause ++ [ask], Success info))
        /\ (forall lasted,
              (0 <= lasted)%Z ->
              clock w (h ++ [ask; Sleep 500; ask])
              = (clock w (h ++ [ask]) + 500 + lasted)%Z ->
              pause = if Z.gtb lasted 500 then []
                      else if Z.eqb lasted 500 then [Sleep 500]
                           else [Sleep (500 - lasted)])).
Proof.
  intros Hfuel ask H1 T1.
  rewrite (classify_run fuel m w h Hfuel). cbv zeta.
  unfold retried. fold ask. cbv zeta. rewrite H1, T1.
  change ("OpenAIError" =? "OpenAIError")%string with true. cbv iota.
  split.
  - intros H2. rewrite H2. reflexivity.
  - intros e2 H2 T2. rewrite H2, T2.
    change ("OpenAIError" =? "OpenAIError")%string with true. cbv iota.
    split.
    + intros H3. cbn [fst snd]. rewrite H3. reflexivity.
    + intros lasted Hl Hclock. rewrite Hclock.
      rewrite (secondWait_grid _ lasted Hl). unfold sleepFor.
      destruct (Z.gtb_spec lasted 500) as [G|G]; [reflexivity|].
      destruct (Z.eqb_spec lasted 500) as [E|E]; [reflexivity|].
      destruct (Z.leb_spec (500 - lasted) 0) as [L|L]; [lia|reflexivity].
Qed.

Lemma classifier_recovers_from_transient_failures_witness :
  classify 3 Samples.question Samples.flaky []
  = Some ([OpenAIFn messageInfo "How do I decode this?"; Sleep 500;
           OpenAIFn messageInfo "How do I decode this?"],
          Success Samples.answer).
Proof.
  exact (proj1 (classifier_recovers_from_transient_failures 3
                  Samples.question Samples.flaky [] (OpenAIError "503")
                  Samples.answer (le_n 3) eq_refl eq_refl)
               eq_refl).
Defined.

(** *** The channel decoder at its edges *)




(** *** What reaches the log *)

(** X13. Dropped messages are silent unless debugging. With [DEBUG]
    unset or false the minimum level is Info, and the handling of a
    message that is not eligible, or whose channel is not, prints
    nothing; with [DEBUG] true its one debug entry is printed. The
    cause of a failed pipeline that is not a [ParseError] is printed as
    an error whatever [DEBUG] is. *)
Theorem dropped_messages_are_silent_unless_debugging
    (topicKeyword : string) (fuel : nat) (w : World) (h : Trace)
    (m : Message) (DEBUG : option bool) :
  3 <= fuel ->
  exists ev,
    handleMessage topicKeyword fuel m w h = Some (ev, Success tt)
    /\ (~ eligibleMessage m
        \/ (exists ch,
              channels_get w h (message_guild_id m)
                (Some (message_channel_id m)) = Success ch
              /\ ~ eligibleChannel topicKeyword ch) ->
        (DEBUG <> Some true ->
         Main.output (Main.LogLevelLive DEBUG) ev = [])
        /\ (DEBUG = Some true ->
            exists text,
              Main.output (Main.LogLevelLive DEBUG) ev
              = [Log LevelDebug (LogText text)]))
    /\ (forall evp c,
          pipeline topicKeyword fuel m w h = Some (evp, Failure c) ->
          (forall e, c = Failed e -> _tag e <> "ParseError") ->
          In (Log LevelError (LogCause c))
            (Main.output (Main.LogLevelLive DEBUG) ev)).
Proof.
  intros Hfuel.
  destruct (handleMessage_trace topicKeyword fuel m w h Hfuel)
    as [ev [Hrun Hev]].
  exists ev. split; [exact Hrun|]. split.
  - intros Hdropped.
    assert (Hshape : exists text,
              ev = [Log LevelDebug (LogText text)]
              \/ ev = [channelLookup m; Log LevelDebug (LogText text)]).
    { destruct (dropped_trace topicKeyword fuel w h m ev Hev) as [Hd1 Hd2].
      destruct (messageIssue m) as [path|] eqn:Hm.
      - destruct Hd1 as [text ->]; [|eauto].
        intros Hyes. apply messageIssue_none in Hyes. congruence.
      - destruct Hdropped as [Hno|[ch [Hch Hno]]].
        + now elim Hno; apply messageIssue_none.
        + destruct (Hd2 ch) as [text ->]; eauto.
          now apply messageIssue_none. }
    destruct Hshape as [text [-> | ->]]; split.
    + intros Hoff. destruct DEBUG as [[|]|]; [now elim Hoff| |]; reflexivity.
    + intros ->. now exists text.
    + intros Hoff. destruct DEBUG as [[|]|]; [now elim Hoff| |]; reflexivity.
    + intros ->. now exists text.
  - intros evp c Hp Hother.
    rewrite handleMessage_run, Hp in Hrun. injection Hrun as <-.
    assert (Hlog : topLevelLog w c = Log LevelError (LogCause c)).
    { unfold topLevelLog. destruct c as [e|d]; [|reflexivity].
      destruct (String.eqb_spec (_tag e) "ParseError") as [T|T];
        [|reflexivity].
      now elim (Hother e eq_refl). }
    unfold Main.output. apply List.filter_In. split.
    + apply List.in_or_app. right. rewrite Hlog. now left.
    + now destruct DEBUG as [[|]|].
Qed.

Lemma dropped_messages_are_silent_unless_debugging_witness :
  3 <= 3
  /\ exists ev,
       handleMessage "[never]" 3 Samples.question
         (Samples.world (Success Samples.answer)) [] = Some (ev, Success tt)
       /\ Main.output (Main.LogLevelLive None) ev = [].
Proof.
  split; [lia|].
  destruct (dropped_messages_are_silent_unless_debugging "[never]" 3
              (Samples.world (Success Samples.answer)) []
              Samples.question None (le_n 3))
    as [ev [Hrun [Hsilent _]]].
  exists ev. split; [exact Hrun|].
  apply Hsilent; [|discriminate].
  right. exists Samples.help. split; [reflexivity|].
  intros [_ [t [Ht Hi]]]. injection Ht as <-. discriminate Hi.
Defined.
